(** * Crosswalk builder: a shallow embedding of [scripts/build_crosswalks.py]

    The development follows the script top to bottom: the Python values it
    manipulates, the two geometry capabilities it borrows from geopandas and
    shapely, the helpers [dissolve_by_name] and [union_by_name], the two
    builders [build_longform_for_primary] and [build_wide_for_primary], and
    the driver loop of [main].

    Areas are Python floats in the script; here they are exact rationals
    ([Q]), with the comparisons, [max] and the (raising) division written
    out as the script evaluates them. *)

From Stdlib Require Import QArith Qround Qabs Sorting.
From stdpp Require Import gmap strings list fin_maps sorting.

Local Open Scope string_scope.
Local Open Scope list_scope.

(** ** Python results: a value, or a raised exception *)

Module Py.

Inductive exn : Set :=
| ZeroDivisionError
| AttributeError
| IndexError
| KeyError.

Inductive result (A : Type) : Type :=
| Ok (a : A)
| Raise (e : exn).
Arguments Ok {A} a.
Arguments Raise {A} e.

Definition bind {A B} (m : result A) (k : A -> result B) : result B :=
  match m with
  | Ok a => k a
  | Raise e => Raise e
  end.

#[global] Instance result_ret : MRet result := @Ok.
#[global] Instance result_bind : MBind result := fun A B k m => bind m k.

(** [for x in l: out.extend(f x)], stopping at the first exception. *)
Fixpoint for_extend {A B} (f : A -> result (list B)) (l : list A)
  : result (list B) :=
  match l with
  | [] => Ok []
  | x :: rest =>
      ys ← f x;
      zs ← for_extend f rest;
      Ok (ys ++ zs)
  end.

(** [[f x for x in l]], stopping at the first exception. *)
Fixpoint for_each {A B} (f : A -> result B) (l : list A) : result (list B) :=
  match l with
  | [] => Ok []
  | x :: rest =>
      y ← f x;
      ys ← for_each f rest;
      Ok (y :: ys)
  end.

(** [max(a, b)] on two numbers: [a] unless [b > a]. *)
Definition max (a b : Q) : Q := if Qle_bool b a then a else b.

(** [x / y] on floats raises on a zero divisor. *)
Definition div (x y : Q) : result Q :=
  if Qeq_bool y 0 then Raise ZeroDivisionError else Ok (x / y)%Q.

(** [str(v)] of a column value that is a string or [None]. *)
Definition str (v : option string) : string :=
  match v with
  | Some s => s
  | None => "None"
  end.

(** Truth value of a float: nonzero. *)
Definition truthy (x : Q) : bool := negb (Qeq_bool x 0).

End Py.
Import Py.

(** ** Ordering of strings, as Python's [sorted] and pandas' sort see it *)

(** A stable sort by insertion: an item goes in front of the first item it
    is not above, so items that tie keep their order. *)
Fixpoint insert_by {A} (leb : A -> A -> bool) (x : A) (l : list A) : list A :=
  match l with
  | [] => [x]
  | y :: rest => if leb x y then x :: l else y :: insert_by leb x rest
  end.

Definition stable_sort {A} (leb : A -> A -> bool) (l : list A) : list A :=
  foldr (insert_by leb) [] l.

(** [sorted(l)] on strings: ascending in the byte-wise lexicographic order,
    which is the code-point order of Python on UTF-8 text. *)
Definition sorted (l : list string) : list string := stable_sort String.leb l.
Arguments sorted : simpl never.

(** [sorted(set(l))] on strings. *)
Definition sorted_set (l : list string) : list string :=
  sorted (remove_dups l).

(** ** The two capability interfaces *)

(** A bounding box [(minx, miny, maxx, maxy)]. *)
Record BBox : Set := mkBBox { minx : Q; miny : Q; maxx : Q; maxy : Q }.

(** Closed boxes meet when they overlap on both axes. *)
Definition bbox_intersects (a b : BBox) : bool :=
  Qle_bool (minx a) (maxx b) && Qle_bool (minx b) (maxx a) &&
  Qle_bool (miny a) (maxy b) && Qle_bool (miny b) (maxy a).

(** The planar-geometry toolkit the script takes from shapely and geopandas:
    the geometry values and the operations it calls on them.  [union_all]
    merges the geometry column of a group, null entries included, and may
    itself come back null. *)
Class Toolkit : Type := {
  Geom : Type;
  area : Geom -> Q;
  is_empty : Geom -> bool;
  buffer : Geom -> Q -> Geom;
  intersection : Geom -> Geom -> Geom;
  union_all : list (option Geom) -> option Geom;
  bounds : Geom -> BBox
}.

(** ** Output rows of the long-form table *)

(** One dict appended to [records]; the fields are the seven CSV columns. *)
Record LongRow : Set := mkLongRow {
  primary_geography_id : string;
  primary_geography_namecol : string;
  other_geography_id : string;
  other_geography_namecol : string;
  primary_area : Q;
  intersection_area : Q;
  percentage_overlap : Q
}.

(** The key of [df.sort_values(by=[name, other id, percentage],
    ascending=[True, True, False])]: lexicographic, the last key reversed. *)
Definition row_leb (r1 r2 : LongRow) : bool :=
  match String.compare (primary_geography_namecol r1)
                       (primary_geography_namecol r2) with
  | Lt => true
  | Gt => false
  | Eq =>
      match String.compare (other_geography_id r1) (other_geography_id r2) with
      | Lt => true
      | Gt => false
      | Eq => Qle_bool (percentage_overlap r2) (percentage_overlap r1)
      end
  end.

(** pandas sorts on several keys with a stable lexicographic sort. *)
Definition sort_values (records : list LongRow) : list LongRow :=
  stable_sort row_leb records.
Arguments sort_values : simpl never.

(** [DataFrame.empty] / [not records] on a list of rows. *)
Definition is_nil {A} (l : list A) : bool :=
  match l with
  | [] => true
  | _ :: _ => false
  end.

(** ** The boundary collection and the helpers over it *)

(** One record of the unified collection: the columns [id], [nameCol] and
    [geometry].  A name or a geometry read from GeoJSON may be null. *)
Record Feature {T : Toolkit} : Type := mkFeature {
  id : string;
  nameCol : option string;
  geometry : option Geom
}.

(** A GeoDataFrame is its rows, in positional ([iloc]) order. *)
Abbreviation GeoDataFrame := (list Feature).

(** A geometry value is live when it is neither null nor empty, and a row
    is live when its geometry is. *)
Definition live_geom {T : Toolkit} (o : option Geom) : Prop :=
  exists g, o = Some g /\ is_empty g = false.

Definition live {T : Toolkit} (f : Feature) : Prop := live_geom (geometry f).

(** A geometry value that is [None] or an empty geometry. *)
Definition null_or_empty {T : Toolkit} (o : option Geom) : Prop :=
  o = None \/ exists g, o = Some g /\ is_empty g = true.

#[global] Instance live_geom_dec {T : Toolkit} (o : option Geom) :
  Decision (live_geom o).
Proof.
  unfold live_geom. destruct o as [g|].
  - destruct (is_empty g) eqn:E.
    + right. intros (g' & [= <-] & H). congruence.
    + left. now exists g.
  - right. intros (g' & H & _). discriminate.
Defined.

#[global] Instance live_dec {T : Toolkit} (f : Feature) : Decision (live f) :=
  live_geom_dec (geometry f).

Section Crosswalk.

Context {T : Toolkit}.

(** [gdf[gdf['id'] == gid]] *)
Definition select_id (gdf : GeoDataFrame) (gid : string) : GeoDataFrame :=
  filter (fun f => id f = gid) gdf.

(** Keys of [groupby('nameCol')]: the distinct non-null names, ascending
    (pandas drops null keys and sorts the groups). *)
Definition group_keys (gdf : GeoDataFrame) : list string :=
  sorted_set (omap nameCol gdf).

(** The rows of one group, in frame order. *)
Definition group_rows (gdf : GeoDataFrame) (name : string) : GeoDataFrame :=
  filter (fun f => nameCol f = Some name) gdf.

(** [aggfunc='first'] on the [id] column of a group. *)
Definition first_id (rows : GeoDataFrame) : string :=
  match rows with
  | f :: _ => id f
  | [] => ""
  end.

Definition dissolve_by_name (geodf : GeoDataFrame) : GeoDataFrame :=
  if is_nil geodf then geodf
  else
    (fun name =>
       let rows := group_rows geodf name in
       {| id := first_id rows;
          nameCol := Some name;
          geometry := union_all (geometry <$> rows) |})
    <$> group_keys geodf.

Definition union_by_name (geodf : GeoDataFrame)
  : list (string * option Geom) :=
  if is_nil geodf then []
  else
    (fun name => (name, union_all (geometry <$> group_rows geodf name)))
    <$> group_keys geodf.

(** *** The spatial candidate index *)

(** geopandas leaves null and empty geometries out of the tree; every other
    row is indexed by its bounding box. *)
Definition indexed_box (f : Feature) : option BBox :=
  match geometry f with
  | Some g => if is_empty g then None else Some (bounds g)
  | None => None
  end.

Definition box_hit (box : BBox) (f : Feature) : bool :=
  match indexed_box f with
  | Some b => bbox_intersects b box
  | None => false
  end.

Fixpoint sindex_from (pos : nat) (gdf : GeoDataFrame) (box : BBox)
  : list nat :=
  match gdf with
  | [] => []
  | f :: rest =>
      if box_hit box f then pos :: sindex_from (S pos) rest box
      else sindex_from (S pos) rest box
  end.

(** [list(gdf.sindex.intersection(box))]: positions of the indexed rows whose
    box meets [box] (listed here in ascending position). *)
Definition sindex_intersection (gdf : GeoDataFrame) (box : BBox) : list nat :=
  sindex_from 0 gdf box.

(** [gdf.iloc[idx]]: positional selection, raising when out of range. *)
Definition iloc (gdf : GeoDataFrame) (idx : list nat) : result GeoDataFrame :=
  for_each
    (fun i => match gdf !! i with
              | Some f => Ok f
              | None => Raise IndexError
              end)
    idx.

(** [primary_dissolved.head(max_primaries)], taken only under
    [max_primaries is not None and max_primaries > 0]. *)
Definition cap_primaries (max_primaries : option Z) (df : GeoDataFrame)
  : GeoDataFrame :=
  match max_primaries with
  | Some n => if (0 <? n)%Z then take (Z.to_nat n) df else df
  | None => df
  end.

(** [p_geom_orig.buffer(buffer_feet) if buffer_feet else p_geom_orig] *)
Definition geom_for_intersection (buffer_feet : Q) (p_geom_orig : Geom)
  : Geom :=
  if truthy buffer_feet then buffer p_geom_orig buffer_feet else p_geom_orig.

(** [float(inter_geom.area) if not inter_geom.is_empty else 0.0] *)
Definition inter_area_of (p_geom_for_intersection t_union : Geom) : Q :=
  let inter_geom := intersection p_geom_for_intersection t_union in
  if is_empty inter_geom then 0%Q else area inter_geom.

(** ** [build_longform_for_primary] *)

Section Longform.

Variables (all_gdf_2263 : GeoDataFrame) (primary_id : string)
  (other_ids : list string)
  (buffer_feet min_intersection_area_final epsilon : Q).

(** Body of [for t_name, t_union in union_by_name(subset)]. *)
Definition longform_union (p_name : string) (p_area : Q)
    (p_geom_for_intersection : Geom) (other_id : string)
    (tu : string * option Geom) : result (list LongRow) :=
  match tu.2 with
  | None => Ok []
  | Some t_union =>
      if is_empty t_union then Ok []
      else
        let inter_area := inter_area_of p_geom_for_intersection t_union in
        if Qle_bool inter_area (Py.max min_intersection_area_final epsilon)
        then Ok []
        else
          ratio ← Py.div inter_area p_area;
          Ok [ {| primary_geography_id := primary_id;
                  primary_geography_namecol := p_name;
                  other_geography_id := other_id;
                  other_geography_namecol := tu.1;
                  primary_area := p_area;
                  intersection_area := inter_area;
                  percentage_overlap := (ratio * 100)%Q |} ]
  end.

(** Body of [for other_id in other_ids]. *)
Definition longform_other (candidate_gdf : GeoDataFrame) (p_name : string)
    (p_area : Q) (p_geom_for_intersection : Geom) (other_id : string)
  : result (list LongRow) :=
  if String.eqb other_id primary_id then Ok []
  else
    let subset := select_id candidate_gdf other_id in
    if is_nil subset then Ok []
    else
      for_extend
        (longform_union p_name p_area p_geom_for_intersection other_id)
        (union_by_name subset).

(** Body of [for _, prow in primary_dissolved.iterrows()]. *)
Definition longform_primary (prow : Feature) : result (list LongRow) :=
  let p_name := Py.str (nameCol prow) in
  match geometry prow with
  | None => Ok []
  | Some p_geom_orig =>
      if is_empty p_geom_orig then Ok []
      else
        let p_area := area p_geom_orig in
        if Qle_bool p_area epsilon then Ok []
        else
          let p_geom_for_intersection :=
            geom_for_intersection buffer_feet p_geom_orig in
          let candidate_idx :=
            sindex_intersection all_gdf_2263 (bounds p_geom_orig) in
          candidate_gdf ← iloc all_gdf_2263 candidate_idx;
          for_extend
            (longform_other candidate_gdf p_name p_area
               p_geom_for_intersection)
            other_ids
  end.

Definition build_longform_for_primary (max_primaries : option Z)
  : result (list LongRow) :=
  let primary_src := select_id all_gdf_2263 primary_id in
  if is_nil primary_src then Ok []
  else
    let primary_dissolved :=
      cap_primaries max_primaries (dissolve_by_name primary_src) in
    records ← for_extend longform_primary primary_dissolved;
    if is_nil records then Ok [] else Ok (sort_values records).

End Longform.

(** ** [build_wide_for_primary] *)

(** The wide DataFrame: its column labels and, per row, the cells under
    those labels.  [pd.DataFrame()] has neither columns nor rows. *)
Record WideTable : Set := mkWideTable {
  columns : list string;
  cells : list (list string)
}.

Definition empty_wide : WideTable := {| columns := []; cells := [] |}.

(** [";".join(sorted(set(keep_names))) if keep_names else ""] *)
Definition cell_text (keep_names : list string) : string :=
  if is_nil keep_names then ""
  else String.concat ";" (sorted_set keep_names).

Section Wide.

Variables (all_gdf_2263 : GeoDataFrame) (primary_id : string)
  (other_ids : list string)
  (buffer_feet min_intersection_area_final epsilon : Q).

(** Body of [for t_name, t_union in union_by_name(subset)]: no guard on the
    union here, so intersecting with a null union yields a null result and
    reading [is_empty] from it raises. *)
Definition wide_keep (p_geom_for_intersection : Geom)
    (tu : string * option Geom) : result (list string) :=
  match tu.2 with
  | None => Raise AttributeError
  | Some t_union =>
      let inter_area := inter_area_of p_geom_for_intersection t_union in
      if negb (Qle_bool inter_area
                 (Py.max min_intersection_area_final epsilon))
      then Ok [tu.1]
      else Ok []
  end.

(** [keep_names] once the loop over the unions of [other_id] is done. *)
Definition wide_keep_names (candidate_gdf : GeoDataFrame)
    (p_geom_for_intersection : Geom) (other_id : string)
  : result (list string) :=
  let subset := select_id candidate_gdf other_id in
  for_extend (wide_keep p_geom_for_intersection) (union_by_name subset).

(** [for other_id in other_ids], updating the dict [record]. *)
Fixpoint wide_record (candidate_gdf : GeoDataFrame)
    (p_geom_for_intersection : Geom) (record : gmap string string)
    (ids : list string) : result (gmap string string) :=
  match ids with
  | [] => Ok record
  | other_id :: rest =>
      if String.eqb other_id primary_id
      then wide_record candidate_gdf p_geom_for_intersection record rest
      else
        keep_names ←
          wide_keep_names candidate_gdf p_geom_for_intersection other_id;
        wide_record candidate_gdf p_geom_for_intersection
          (<[other_id := cell_text keep_names]> record) rest
  end.

(** Body of [for _, prow in primary_dissolved.iterrows()]: the dicts it
    appends to [rows] (none or one). *)
Definition wide_primary (prow : Feature)
  : result (list (gmap string string)) :=
  let p_name := Py.str (nameCol prow) in
  match geometry prow with
  | None => Ok []
  | Some p_geom_orig =>
      if is_empty p_geom_orig then Ok []
      else
        let p_geom_for_intersection :=
          geom_for_intersection buffer_feet p_geom_orig in
        let candidate_idx :=
          sindex_intersection all_gdf_2263 (bounds p_geom_orig) in
        candidate_gdf ← iloc all_gdf_2263 candidate_idx;
        record ←
          wide_record candidate_gdf p_geom_for_intersection
            {[ primary_id := p_name ]} other_ids;
        Ok [record]
  end.

(** [[primary_id] + sorted([g for g in other_ids if g != primary_id])] *)
Definition wide_columns : list string :=
  primary_id
    :: sorted (filter (fun g => g <> primary_id) other_ids).

(** [pd.DataFrame(rows)[cols]]: every dict is read under every label. *)
Definition select_columns (cols : list string)
    (rows : list (gmap string string)) : result (list (list string)) :=
  for_each
    (fun record : gmap string string =>
       for_each
         (fun c => match record !! c with
                   | Some v => Ok v
                   | None => Raise KeyError
                   end)
         cols)
    rows.

Definition build_wide_for_primary (max_primaries : option Z)
  : result WideTable :=
  let primary_src := select_id all_gdf_2263 primary_id in
  if is_nil primary_src then Ok empty_wide
  else
    let primary_dissolved :=
      cap_primaries max_primaries (dissolve_by_name primary_src) in
    rows ← for_extend wide_primary primary_dissolved;
    if is_nil rows then Ok empty_wide
    else
      let cols := wide_columns in
      data ← select_columns cols rows;
      Ok {| columns := cols; cells := data |}.

End Wide.

(** ** The driver: [main] *)

(** The parsed command line, with the boundaries file already read (and
    reprojected) into a frame. *)
Record Args : Type := mkArgs {
  boundaries : GeoDataFrame;
  run_dir : string;
  buffer_feet : Q;
  min_area_final : Q;
  epsilon : Q;
  exclude_ids : list string;
  primary_only : option (list string);
  targets : option (list string);
  max_primaries : option Z
}.

(** What [main] leaves on disk, in the order written. *)
Inductive Artifact : Type :=
| LongformCsv (path : string) (rows : list LongRow)
| WideCsv (path : string) (table : WideTable)
| MetaJson (path : string)
    (buffer_feet min_intersection_area_final epsilon : Q)
    (exclude_ids primary_ids target_ids : list string).

(** [os.path.join(a, b)] on POSIX. *)
Definition path_join (a b : string) : string :=
  if String.prefix "/" b then b
  else if (String.eqb a "" ||
           String.eqb (String.substring (String.length a - 1) 1 a) "/")%bool
       then (a ++ b)%string
       else (a ++ "/" ++ b)%string.

Definition longform_path (run : string) (primary_id : string) : string :=
  path_join (path_join run "longform")
            ("longform_" ++ primary_id ++ "_crosswalk.csv")%string.

Definition wide_path (run : string) (primary_id : string) : string :=
  path_join (path_join run "wide")
            ("wide_" ++ primary_id ++ "_crosswalk.csv")%string.

(** [wf.empty]: no rows or no columns. *)
Definition wide_empty (wf : WideTable) : bool :=
  (is_nil (cells wf) || is_nil (columns wf))%bool.

(** An optional list of ids is used only when given and non-empty. *)
Definition restrict_ids (requested : option (list string))
    (ids : list string) : list string :=
  match requested with
  | Some (g :: gs) =>
      filter (fun gid => gid ∈ ids) (g :: gs)
  | Some [] | None => ids
  end.

(** [ids]: the distinct ids of the collection, ascending, minus the
    excluded ones. *)
Definition geography_ids (args : Args) : list string :=
  filter (fun gid => gid ∉ exclude_ids args)
    (sorted_set (id <$> boundaries args)).

(** One turn of [for primary_id in primary_ids]: the files added to those
    already [written], and the exception that ends the run, if any. *)
Definition build_primary (args : Args) (target_ids : list string)
    (written : list Artifact) (primary_id : string)
  : list Artifact * option exn :=
  match build_longform_for_primary (boundaries args) primary_id target_ids
          (buffer_feet args) (min_area_final args) (epsilon args)
          (max_primaries args) with
  | Raise e => (written, Some e)
  | Ok lf =>
      let written :=
        if is_nil lf then written
        else written ++ [LongformCsv (longform_path (run_dir args) primary_id) lf]
      in
      match build_wide_for_primary (boundaries args) primary_id target_ids
              (buffer_feet args) (min_area_final args) (epsilon args)
              (max_primaries args) with
      | Raise e => (written, Some e)
      | Ok wf =>
          (if wide_empty wf then written
           else written ++ [WideCsv (wide_path (run_dir args) primary_id) wf],
           None)
      end
  end.

Fixpoint build_primaries (args : Args) (target_ids : list string)
    (written : list Artifact) (primary_ids : list string)
  : list Artifact * option exn :=
  match primary_ids with
  | [] => (written, None)
  | primary_id :: rest =>
      match build_primary args target_ids written primary_id with
      | (written', None) => build_primaries args target_ids written' rest
      | (written', Some e) => (written', Some e)
      end
  end.

Definition main (args : Args) : list Artifact * option exn :=
  let ids := geography_ids args in
  let primary_ids := restrict_ids (primary_only args) ids in
  let target_ids := restrict_ids (targets args) ids in
  match build_primaries args target_ids [] primary_ids with
  | (written, None) =>
      (written ++
         [MetaJson (path_join (run_dir args) "crosswalks_meta.json")
            (buffer_feet args) (min_area_final args) (epsilon args)
            (exclude_ids args) primary_ids target_ids],
       None)
  | (written, Some e) => (written, Some e)
  end.

End Crosswalk.

(** ** A concrete toolkit: regions made of unit squares

    A region is a finite set of unit cells of the integer grid, the cell
    [(x, y)] being the square from [(x, y)] to [(x+1, y+1)], one square foot.
    Union, intersection and area are exact on such regions; a buffer of [d]
    feet grows (or, for negative [d], shrinks) the region by whole cells with
    square corners. *)

Module Grid.

Definition Cell : Set := (Z * Z)%type.
Definition Region : Set := list Cell.

Definition area (g : Region) : Q := inject_Z (Z.of_nat (length g)).

Definition is_empty (g : Region) : bool := is_nil g.

Definition intersection (a b : Region) : Region :=
  List.filter (fun c => bool_decide (c ∈ b)) a.

Definition union_all (gs : list (option Region)) : option Region :=
  Some (remove_dups (concat (omap (fun o => o) gs))).

(** The cell itself and the eight around it. *)
Definition around (c : Cell) : list Cell :=
  List.map (fun d : Z * Z => (c.1 + d.1, c.2 + d.2)%Z)
    [(-1, -1); (0, -1); (1, -1); (-1, 0); (0, 0); (1, 0); (-1, 1); (0, 1);
     (1, 1)]%Z.

Definition grow (g : Region) : Region := remove_dups (flat_map around g).

Definition shrink (g : Region) : Region :=
  List.filter (fun c => forallb (fun n => bool_decide (n ∈ g)) (around c)) g.

Definition buffer (g : Region) (d : Q) : Region :=
  let steps := Z.to_nat (Qfloor (Qabs d)) in
  if Qle_bool d 0 then Nat.iter steps shrink g else Nat.iter steps grow g.

Definition span (zs : list Z) : Z * Z :=
  match zs with
  | [] => (0, 0)%Z
  | z :: rest => (fold_right Z.min z rest, (fold_right Z.max z rest + 1)%Z)
  end.

Definition bounds (g : Region) : BBox :=
  let xs := span (List.map fst g) in
  let ys := span (List.map snd g) in
  {| minx := inject_Z xs.1; miny := inject_Z ys.1;
     maxx := inject_Z xs.2; maxy := inject_Z ys.2 |}.

Definition toolkit : Toolkit :=
  Build_Toolkit Region area is_empty buffer intersection union_all bounds.

(** The cells of the rectangle from [(x0, y0)], [w] wide and [h] high. *)
Definition rect (x0 y0 : Z) (w h : nat) : Region :=
  flat_map (fun i => List.map (fun j => (x0 + Z.of_nat i, y0 + Z.of_nat j)%Z)
                       (seq 0 h))
           (seq 0 w).

Definition feature (gid name : string) (g : Region) : @Feature toolkit :=
  @mkFeature toolkit gid (Some name) (Some g).

End Grid.

(** ** A second toolkit: unit squares and isolated points

    The grid regions again, now together with lattice points lying outside
    every square of the shape: a shape can be non-empty and still have no
    area, like a point or a collapsed polygon in shapely. *)

Module Dotted.

Definition Shape : Set := (Grid.Region * list Grid.Cell)%type.

Definition area (s : Shape) : Q := Grid.area s.1.

Definition is_empty (s : Shape) : bool := is_nil s.1 && is_nil s.2.

(** The point [p] lies on the closed square [c]. *)
Definition on_cell (p c : Grid.Cell) : bool :=
  ((c.1 <=? p.1) && (p.1 <=? c.1 + 1) && (c.2 <=? p.2) && (p.2 <=? c.2 + 1))%Z.

Definition covered (r : Grid.Region) (p : Grid.Cell) : bool :=
  existsb (on_cell p) r.

Definition intersection (a b : Shape) : Shape :=
  (Grid.intersection a.1 b.1,
   remove_dups
     (List.filter (fun p => bool_decide (p ∈ b.2) || covered b.1 p) a.2
      ++ List.filter (covered a.1) b.2)).

Definition union_all (gs : list (option Shape)) : option Shape :=
  let shapes := omap (fun o => o) gs in
  let squares := remove_dups (concat (fst <$> shapes)) in
  Some (squares,
        remove_dups
          (List.filter (fun p => negb (covered squares p))
             (concat (snd <$> shapes)))).

(** The four squares that meet at a lattice point. *)
Definition corner_cells (p : Grid.Cell) : list Grid.Cell :=
  [(p.1 - 1, p.2 - 1); (p.1 - 1, p.2); (p.1, p.2 - 1); (p.1, p.2)]%Z.

(** Shrinking removes the points; growing turns each point into the squares
    around it. *)
Definition buffer (s : Shape) (d : Q) : Shape :=
  match Z.to_nat (Qfloor (Qabs d)) with
  | O => s
  | S k =>
      if Qle_bool d 0 then (Nat.iter (S k) Grid.shrink s.1, [])
      else
        (remove_dups
           (Nat.iter (S k) Grid.grow s.1
            ++ Nat.iter k Grid.grow (flat_map corner_cells s.2)),
         [])
  end.

Definition bounds (s : Shape) : BBox :=
  let xs := flat_map (fun c : Grid.Cell => [c.1; (c.1 + 1)%Z]) s.1
            ++ List.map fst s.2 in
  let ys := flat_map (fun c : Grid.Cell => [c.2; (c.2 + 1)%Z]) s.1
            ++ List.map snd s.2 in
  match xs, ys with
  | x :: xs', y :: ys' =>
      {| minx := inject_Z (fold_right Z.min x xs');
         miny := inject_Z (fold_right Z.min y ys');
         maxx := inject_Z (fold_right Z.max x xs');
         maxy := inject_Z (fold_right Z.max y ys') |}
  | _, _ => {| minx := 0; miny := 0; maxx := 0; maxy := 0 |}
  end.

Definition toolkit : Toolkit :=
  Build_Toolkit Shape area is_empty buffer intersection union_all bounds.

Definition feature (gid name : string) (s : Shape) : @Feature toolkit :=
  @mkFeature toolkit gid (Some name) (Some s).

End Dotted.

(** ** The caller: [find_latest_run] of [scripts/make_run.py] *)

(** The children of the outputs folder as [glob('*')] lists them: a name and
    whether it is a directory.  Sibling paths compare by their names. *)
Definition find_latest_run (children : list (string * bool)) : option string :=
  let runs := fst <$> filter (fun c : string * bool => c.2 = true) children in
  if is_nil runs then None else last (sorted runs).

(** The key of a long-form row: primary name, other id, other name. *)
Definition row_key (r : LongRow) : string * string * string :=
  (primary_geography_namecol r, other_geography_id r,
   other_geography_namecol r).

(** * Reading the results *)

(** The record the innermost loop appends for one surviving pair. *)
Definition overlap_record (primary_id p_name other_id t_name : string)
    (p_area inter_area : Q) : LongRow :=
  {| primary_geography_id := primary_id;
     primary_geography_namecol := p_name;
     other_geography_id := other_id;
     other_geography_namecol := t_name;
     primary_area := p_area;
     intersection_area := inter_area;
     percentage_overlap := (inter_area / p_area * 100)%Q |}.

(** Strictly before, in the byte-wise lexicographic order of strings. *)
Definition string_lt (a b : string) : Prop := String.compare a b = Lt.

(** The order the long-form table is specified to follow: primary name
    ascending, then other id ascending, then percentage descending. *)
Definition row_order (r1 r2 : LongRow) : Prop :=
  string_lt (primary_geography_namecol r1) (primary_geography_namecol r2) \/
  (primary_geography_namecol r1 = primary_geography_namecol r2 /\
   (string_lt (other_geography_id r1) (other_geography_id r2) \/
    (other_geography_id r1 = other_geography_id r2 /\
     (percentage_overlap r2 <= percentage_overlap r1)%Q))).

(** ** Facts asked of a toolkit *)

(** The toolkit fact the wide path leans on: a union of one or more live
    geometries is a live geometry. *)
Definition union_all_live {T : Toolkit} : Prop :=
  forall gs : list (option Geom),
    gs <> [] ->
    (forall o, o ∈ gs -> exists g, o = Some g /\ is_empty g = false) ->
    exists u, union_all gs = Some u /\ is_empty u = false.

(** The area of an intersection never exceeds the area of its first
    operand. *)
Definition area_intersection_le {T : Toolkit} : Prop :=
  forall a b : Geom, (area (intersection a b) <= area a)%Q.

(** Areas are not negative. *)
Definition area_nonneg {T : Toolkit} : Prop := forall g : Geom, (0 <= area g)%Q.

(** ** The rows of the wide table *)

Section Reading.

Context {T : Toolkit}.
Variables (all_gdf_2263 : GeoDataFrame) (primary_id : string)
  (other_ids : list string)
  (buffer_feet min_intersection_area_final epsilon : Q).

(** The cell under [other_id] in the row of the region with raw geometry
    [g]: the serialised names kept for that pair. *)
Definition wide_cell_of (g : Geom) (other_id cell : string) : Prop :=
  exists ks,
    wide_keep_names min_intersection_area_final epsilon
      (filter (fun f => box_hit (bounds g) f = true) all_gdf_2263)
      (geom_for_intersection buffer_feet g) other_id = Ok ks /\
    cell = cell_text ks.

(** The table row of a dissolved region: its name, then one cell per other
    id in column order. *)
Definition wide_row_of (prow : Feature) (row : list string) : Prop :=
  exists g,
    geometry prow = Some g /\
    exists others,
      row = Py.str (nameCol prow) :: others /\
      Forall2 (wide_cell_of g)
        (sorted (filter (fun g => g <> primary_id) other_ids)) others.

(** The dict appended for a live region. *)
Definition wide_dict_of (prow : Feature) (record : gmap string string) : Prop :=
  exists g,
    geometry prow = Some g /\
    record !! primary_id = Some (Py.str (nameCol prow)) /\
    forall c, c ∈ other_ids -> c <> primary_id ->
      exists cell, wide_cell_of g c cell /\ record !! c = Some cell.

End Reading.

(** * Sample collections on the grid *)

(** One unit-square district and a precinct two squares wide over it. *)
Definition tiny : list (@Feature Grid.toolkit) :=
  [ Grid.feature "cd" "A" (Grid.rect 0 0 1 1);
    Grid.feature "pp" "T" (Grid.rect 0 0 2 1) ].

(** A run that asks for the absent id [zz] and for [cd]. *)
Definition tiny_args : @Args Grid.toolkit :=
  {| boundaries := tiny; run_dir := "out"; buffer_feet := 0;
     min_area_final := 1 # 2; epsilon := 1 # 1000000;
     exclude_ids := ["cc_upcoming"]; primary_only := Some ["zz"; "cd"];
     targets := None; max_primaries := None |}.

(** A run over [tiny] whose threshold no overlap survives. *)
Definition strict_args : @Args Grid.toolkit :=
  {| boundaries := tiny; run_dir := "out"; buffer_feet := 0;
     min_area_final := 5; epsilon := 1 # 1000000;
     exclude_ids := ["cc_upcoming"]; primary_only := None;
     targets := None; max_primaries := None |}.

(** Two unit squares side by side: they share an edge and no area. *)
Definition touching : list (@Feature Grid.toolkit) :=
  [ Grid.feature "cd" "A" (Grid.rect 0 0 1 1);
    Grid.feature "pp" "T" (Grid.rect 1 0 1 1) ].

(** A small collection on the grid: one district [A] (a 4 by 4 square) and
    three precincts, two inside it and one touching its right edge. *)
Definition shrunk : list (@Feature Grid.toolkit) :=
  [ Grid.feature "cd" "A" (Grid.rect 0 0 4 4);
    Grid.feature "pp" "T" (Grid.rect 0 0 4 2);
    Grid.feature "pp" "U" (Grid.rect 0 2 4 2);
    Grid.feature "pp" "V" (Grid.rect 4 0 3 3) ].

(** Two districts and the precincts and school district over them. *)
Definition ordered : list (@Feature Grid.toolkit) :=
  [ Grid.feature "cd" "B" (Grid.rect 4 0 2 2);
    Grid.feature "cd" "A" (Grid.rect 0 0 4 4);
    Grid.feature "pp" "T" (Grid.rect 0 0 4 1);
    Grid.feature "pp" "U" (Grid.rect 0 1 6 3);
    Grid.feature "sd" "S" (Grid.rect 0 0 6 4) ].

Definition ordered_rows : list LongRow :=
  [ mkLongRow "cd" "A" "pp" "U" 16 12 (12 / 16 * 100);
    mkLongRow "cd" "A" "pp" "T" 16 4 (4 / 16 * 100);
    mkLongRow "cd" "A" "sd" "S" 16 16 (16 / 16 * 100);
    mkLongRow "cd" "B" "pp" "U" 4 2 (2 / 4 * 100);
    mkLongRow "cd" "B" "sd" "S" 4 4 (4 / 4 * 100) ].

(** District [A] next to a district without geometry and one with an empty
    geometry; likewise among the precincts. *)
Definition holes : list (@Feature Grid.toolkit) :=
  [ Grid.feature "cd" "A" (Grid.rect 0 0 2 2);
    @mkFeature Grid.toolkit "cd" (Some "N") None;
    Grid.feature "cd" "E" [];
    Grid.feature "pp" "T" (Grid.rect 0 0 2 1);
    @mkFeature Grid.toolkit "pp" (Some "X") None;
    Grid.feature "pp" "Y" [] ].

(** A 20 by 20 region holding a 2 by 2 region of another type. *)
Definition nested : list (@Feature Grid.toolkit) :=
  [ Grid.feature "cd" "P" (Grid.rect 0 0 20 20);
    Grid.feature "pp" "Q" (Grid.rect 3 3 2 2) ].

(** A district that is a single point, on the corner of a one-square
    precinct. *)
Definition speck : list (@Feature Dotted.toolkit) :=
  [ Dotted.feature "cd" "P" ([], [(0, 0)%Z]);
    Dotted.feature "pp" "T" (Grid.rect 0 0 1 1, []) ].

(** A file written inside the loop of [main]: a long-form or a wide CSV. *)
Definition is_csv (a : Artifact) : bool :=
  match a with
  | LongformCsv _ _ | WideCsv _ _ => true
  | MetaJson _ _ _ _ _ _ _ => false
  end.

(** A run over [speck] with both thresholds below zero. *)
Definition speck_args : @Args Dotted.toolkit :=
  {| boundaries := speck; run_dir := "out"; buffer_feet := 0;
     min_area_final := -1; epsilon := -1;
     exclude_ids := ["cc_upcoming"]; primary_only := None;
     targets := None; max_primaries := None |}.

(** * Facts about the Python control flow *)

Ltac py_simpl :=
  repeat (simpl in *; unfold mbind, result_bind, Py.bind, mret, result_ret in * ).

Section LoopFacts.

Context {A B : Type}.
Implicit Types (f g : A -> result (list B)) (l : list A).

Lemma for_extend_cons_Ok f x l ys zs :
  f x = Ok ys -> for_extend f l = Ok zs -> for_extend f (x :: l) = Ok (ys ++ zs).
Proof. intros Hx Hl. py_simpl. now rewrite Hx, Hl. Qed.

Lemma for_extend_cons_inv f x l out :
  for_extend f (x :: l) = Ok out ->
  exists ys zs, f x = Ok ys /\ for_extend f l = Ok zs /\ out = ys ++ zs.
Proof.
  py_simpl. destruct (f x) as [ys|e]; [|discriminate].
  destruct (for_extend f l) as [zs|e]; [|discriminate].
  intros [= <-]. now exists ys, zs.
Qed.

Lemma for_extend_elem f l out y :
  for_extend f l = Ok out ->
  y ∈ out <-> exists x ys, x ∈ l /\ f x = Ok ys /\ y ∈ ys.
Proof.
  revert out. induction l as [|x l IH]; intros out Hout.
  - injection Hout as <-. split.
    + intros H. inversion H.
    + intros (x & ys & H & _). inversion H.
  - apply for_extend_cons_inv in Hout as (ys & zs & Hx & Hl & ->).
    rewrite elem_of_app, (IH zs Hl). split.
    + intros [Hy | (x' & ys' & Hin & Hf & Hy)].
      * exists x, ys. split; [left | easy].
      * exists x', ys'. split; [now right | easy].
    + intros (x' & ys' & Hin & Hf & Hy).
      apply elem_of_cons in Hin as [-> | Hin].
      * left. congruence.
      * right. now exists x', ys'.
Qed.

Lemma for_extend_total f l :
  (forall x, x ∈ l -> exists ys, f x = Ok ys) ->
  exists out, for_extend f l = Ok out.
Proof.
  induction l as [|x l IH]; intros Hall.
  - now exists [].
  - destruct (Hall x) as [ys Hx]; [left|].
    destruct IH as [zs Hl]; [intros; apply Hall; now right|].
    exists (ys ++ zs). now apply for_extend_cons_Ok.
Qed.

(** Turns of the loop that add nothing and raise nothing can be left out. *)
Lemma for_extend_skip (P : A -> Prop) `{!forall x, Decision (P x)} f l :
  (forall x, x ∈ l -> ~ P x -> f x = Ok []) ->
  for_extend f (filter P l) = for_extend f l.
Proof.
  induction l as [|x l IH]; intros Hskip; [easy|].
  rewrite filter_cons. destruct (decide (P x)) as [HP|HP].
  - py_simpl. rewrite IH; [easy|]. intros; apply Hskip; [now right|easy].
  - rewrite IH by (intros; apply Hskip; [now right|easy]).
    py_simpl. rewrite (Hskip x) by (left || easy).
    now destruct (for_extend f l).
Qed.

End LoopFacts.

Lemma for_each_total {A B} (f : A -> result B) (l : list A) :
  (forall x, x ∈ l -> exists y, f x = Ok y) ->
  exists ys, for_each f l = Ok ys /\ Forall2 (fun x y => f x = Ok y) l ys.
Proof.
  induction l as [|x l IH]; intros Hall.
  - exists []. split; [easy | constructor].
  - destruct (Hall x) as [y Hx]; [left|].
    destruct IH as (ys & Hl & HF); [intros; apply Hall; now right|].
    exists (y :: ys). split; [|now constructor].
    py_simpl. now rewrite Hx, Hl.
Qed.

Lemma is_nil_true {A} (l : list A) : is_nil l = true <-> l = [].
Proof. destruct l; simpl; split; congruence. Qed.

(** ** Sorting *)

Lemma insert_by_perm {A} (leb : A -> A -> bool) x l :
  insert_by leb x l ≡ₚ x :: l.
Proof.
  induction l as [|y l IH]; simpl; [easy|].
  destruct (leb x y); [easy|]. rewrite IH. apply Permutation_swap.
Qed.

Lemma stable_sort_perm {A} (leb : A -> A -> bool) l : stable_sort leb l ≡ₚ l.
Proof.
  induction l as [|x l IH]; simpl; [easy|].
  unfold stable_sort in *. simpl. now rewrite insert_by_perm, IH.
Qed.

(** Under a total and transitive order the sort puts every item before all
    later ones. *)
Lemma stable_sort_sorted {A} (leb : A -> A -> bool) l :
  (forall a b, leb a b = true \/ leb b a = true) ->
  (forall a b c, leb a b = true -> leb b c = true -> leb a c = true) ->
  StronglySorted (fun a b => leb a b = true) (stable_sort leb l).
Proof.
  intros Htotal Htrans.
  assert (Hins : forall x l,
            StronglySorted (fun a b => leb a b = true) l ->
            StronglySorted (fun a b => leb a b = true) (insert_by leb x l)).
  { intros x l0 Hs. induction Hs as [|y l0 Hs IH Hall]; simpl.
    - repeat constructor.
    - destruct (leb x y) eqn:E.
      + constructor; [now constructor|]. constructor; [easy|].
        eapply Forall_impl; [exact Hall|]. intros z Hz. eauto.
      + constructor; [easy|]. rewrite insert_by_perm. constructor; [|easy].
        destruct (Htotal x y); congruence. }
  induction l as [|x l IH]; [constructor|]. now apply Hins.
Qed.

Lemma sorted_elem (l : list string) x : x ∈ sorted l <-> x ∈ l.
Proof. unfold sorted. now rewrite stable_sort_perm. Qed.

Lemma sorted_set_elem (l : list string) x : x ∈ sorted_set l <-> x ∈ l.
Proof. unfold sorted_set. now rewrite sorted_elem, elem_of_remove_dups. Qed.

Lemma sort_values_elem (records : list LongRow) r :
  r ∈ sort_values records <-> r ∈ records.
Proof. unfold sort_values. now rewrite stable_sort_perm. Qed.

Lemma row_leb_total : forall a b, row_leb a b = true \/ row_leb b a = true.
Proof.
  intros a b. unfold row_leb.
  rewrite (String.compare_antisym (primary_geography_namecol b)).
  rewrite (String.compare_antisym (other_geography_id b)).
  destruct (String.compare _ (primary_geography_namecol b)); simpl; auto.
  destruct (String.compare _ (other_geography_id b)); simpl; auto.
  rewrite !Qle_bool_iff.
  destruct (Qlt_le_dec (percentage_overlap a) (percentage_overlap b)) as [H|H];
    [right; apply Qlt_le_weak, H | left; exact H].
Qed.

(** Loops whose every turn yields no more than the matching turn of another
    loop: the second completes whenever the first does, with no more
    output. *)
Lemma for_extend_mono {A B} (f g : A -> result (list B)) (l : list A) out :
  (forall x ys, x ∈ l -> f x = Ok ys -> exists zs, g x = Ok zs /\ zs ⊆ ys) ->
  for_extend f l = Ok out ->
  exists out', for_extend g l = Ok out' /\ out' ⊆ out.
Proof.
  revert out. induction l as [|x l IH]; intros out Hstep Hout.
  - injection Hout as <-. now exists [].
  - apply for_extend_cons_inv in Hout as (ys & zs & Hx & Hl & ->).
    destruct (Hstep x ys) as (ys' & Hx' & Hsub); [left | easy |].
    destruct (IH zs) as (zs' & Hl' & Hsub'); [|easy|].
    { intros x' ys0 Hin. apply Hstep. now right. }
    exists (ys' ++ zs'). split; [now apply for_extend_cons_Ok|].
    intros y. rewrite !elem_of_app. intros [Hy|Hy]; [left|right]; auto.
Qed.

(** * Facts about the frame helpers *)

Section FrameFacts.

Context {T : Toolkit}.
Implicit Types (gdf : GeoDataFrame) (f prow : Feature) (box : BBox).

Lemma box_hit_live box f : box_hit box f = true -> live f.
Proof.
  unfold box_hit, indexed_box, live, live_geom.
  destruct (geometry f) as [g|]; [|easy].
  destruct (is_empty g) eqn:E; [easy|]. intros _. now exists g.
Qed.

Lemma iloc_sindex_from (pre : GeoDataFrame) gdf box :
  iloc (pre ++ gdf) (sindex_from (length pre) gdf box)
  = Ok (filter (fun f => box_hit box f = true) gdf).
Proof.
  revert pre. induction gdf as [|f rest IH]; intros pre; [easy|].
  specialize (IH (pre ++ [f])).
  rewrite <- app_assoc, length_app in IH. simpl in IH.
  replace (length pre + 1) with (S (length pre)) in IH by lia.
  rewrite filter_cons. simpl.
  destruct (decide (box_hit box f = true)) as [Hhit|Hhit].
  - rewrite Hhit. unfold iloc in *. py_simpl.
    rewrite list_lookup_middle by easy. now rewrite IH.
  - apply not_true_is_false in Hhit. now rewrite Hhit.
Qed.

(** Selecting the positions the index returns never goes out of range: it
    yields the indexed rows whose box meets the query, in frame order. *)
Lemma iloc_sindex gdf box :
  iloc gdf (sindex_intersection gdf box)
  = Ok (filter (fun f => box_hit box f = true) gdf).
Proof. apply (iloc_sindex_from [] gdf box). Qed.

Lemma select_id_elem gdf gid f : f ∈ select_id gdf gid <-> id f = gid /\ f ∈ gdf.
Proof. unfold select_id. apply (list_elem_of_filter (fun f => id f = gid)). Qed.

Lemma group_rows_elem gdf name f :
  f ∈ group_rows gdf name <-> nameCol f = Some name /\ f ∈ gdf.
Proof.
  unfold group_rows. apply (list_elem_of_filter (fun f => nameCol f = Some name)).
Qed.

Lemma group_keys_elem gdf name :
  name ∈ group_keys gdf <-> exists f, f ∈ gdf /\ nameCol f = Some name.
Proof.
  unfold group_keys. rewrite sorted_set_elem, list_elem_of_omap.
  split; intros (f & H1 & H2); now exists f.
Qed.

Lemma union_by_name_elem gdf tu :
  tu ∈ union_by_name gdf <->
  tu.1 ∈ group_keys gdf /\
  tu.2 = union_all (geometry <$> group_rows gdf tu.1).
Proof.
  unfold union_by_name. destruct (is_nil gdf) eqn:E.
  - apply is_nil_true in E as ->. split; [intros H; inversion H|].
    intros [H _]. apply group_keys_elem in H as (f & H & _). inversion H.
  - rewrite list_elem_of_fmap. split.
    + intros (name & -> & H). now simpl.
    + intros [H1 H2]. exists tu.1. split; [|easy].
      destruct tu; simpl in *; congruence.
Qed.

End FrameFacts.

(** * Where a long-form row comes from *)

Section LongformFacts.

Context {T : Toolkit}.
Variables (all_gdf_2263 : GeoDataFrame) (primary_id : string)
  (other_ids : list string)
  (buffer_feet min_intersection_area_final epsilon : Q).

Lemma longform_union_inv p_name p_area pgi other_id tu ys r :
  longform_union primary_id min_intersection_area_final epsilon
    p_name p_area pgi other_id tu = Ok ys ->
  r ∈ ys ->
  exists t_union,
    tu.2 = Some t_union /\ is_empty t_union = false /\
    Qle_bool (inter_area_of pgi t_union)
      (Py.max min_intersection_area_final epsilon) = false /\
    Qeq_bool p_area 0 = false /\
    r = overlap_record primary_id p_name other_id tu.1 p_area
          (inter_area_of pgi t_union).
Proof.
  unfold longform_union, Py.div.
  destruct tu.2 as [t_union|]; [|intros [= <-] H; inversion H].
  destruct (is_empty t_union) eqn:He; [intros [= <-] H; inversion H|].
  destruct (Qle_bool _ _) eqn:Hthr; [intros [= <-] H; inversion H|].
  destruct (Qeq_bool p_area 0) eqn:Hz; py_simpl; [discriminate|].
  intros [= <-] Hr. apply list_elem_of_singleton in Hr as ->.
  now exists t_union.
Qed.

Lemma longform_other_inv candidate_gdf p_name p_area pgi other_id ys r :
  longform_other primary_id min_intersection_area_final epsilon
    candidate_gdf p_name p_area pgi other_id = Ok ys ->
  r ∈ ys ->
  other_id <> primary_id /\
  exists tu ys',
    tu ∈ union_by_name (select_id candidate_gdf other_id) /\
    longform_union primary_id min_intersection_area_final epsilon
      p_name p_area pgi other_id tu = Ok ys' /\
    r ∈ ys'.
Proof.
  unfold longform_other.
  destruct (String.eqb_spec other_id primary_id) as [->|Hne];
    [intros [= <-] H; inversion H|].
  destruct (is_nil _); [intros [= <-] H; inversion H|].
  intros Hloop Hr. split; [easy|].
  now apply (for_extend_elem _ _ _ r Hloop) in Hr.
Qed.

Lemma longform_primary_inv prow ys r :
  longform_primary all_gdf_2263 primary_id other_ids buffer_feet
    min_intersection_area_final epsilon prow = Ok ys ->
  r ∈ ys ->
  exists p_geom_orig other_id ys',
    geometry prow = Some p_geom_orig /\ is_empty p_geom_orig = false /\
    Qle_bool (area p_geom_orig) epsilon = false /\
    other_id ∈ other_ids /\
    longform_other primary_id min_intersection_area_final epsilon
      (filter (fun f => box_hit (bounds p_geom_orig) f = true) all_gdf_2263)
      (Py.str (nameCol prow)) (area p_geom_orig)
      (geom_for_intersection buffer_feet p_geom_orig) other_id = Ok ys' /\
    r ∈ ys'.
Proof.
  unfold longform_primary.
  destruct (geometry prow) as [g|]; [|intros [= <-] H; inversion H].
  destruct (is_empty g) eqn:He; [intros [= <-] H; inversion H|].
  destruct (Qle_bool (area g) epsilon) eqn:Ha; [intros [= <-] H; inversion H|].
  rewrite iloc_sindex. py_simpl. intros Hloop Hr.
  apply (for_extend_elem _ _ _ r Hloop) in Hr as (other_id & ys' & H1 & H2 & H3).
  now exists g, other_id, ys'.
Qed.

(** The rows of a completed build are the records its loop appended. *)
Lemma build_longform_records max_primaries rows :
  build_longform_for_primary all_gdf_2263 primary_id other_ids buffer_feet
    min_intersection_area_final epsilon max_primaries = Ok rows ->
  rows = [] \/
  exists records,
    for_extend
      (longform_primary all_gdf_2263 primary_id other_ids buffer_feet
         min_intersection_area_final epsilon)
      (cap_primaries max_primaries
         (dissolve_by_name (select_id all_gdf_2263 primary_id)))
    = Ok records /\
    rows = sort_values records.
Proof.
  unfold build_longform_for_primary.
  destruct (is_nil (select_id _ _)); [intros [= <-]; now left|].
  py_simpl. destruct (for_extend _ _) as [records|]; [|discriminate].
  destruct (is_nil records); intros [= <-]; [now left|].
  right. now exists records.
Qed.

(** Every row of the long-form table was appended for one processed primary
    region, one other id and one name union among the candidates, past both
    guards and the threshold. *)
Lemma longform_row_origin max_primaries rows r :
  build_longform_for_primary all_gdf_2263 primary_id other_ids buffer_feet
    min_intersection_area_final epsilon max_primaries = Ok rows ->
  r ∈ rows ->
  exists prow p_geom_orig other_id t_name t_union,
    prow ∈ cap_primaries max_primaries
             (dissolve_by_name (select_id all_gdf_2263 primary_id)) /\
    geometry prow = Some p_geom_orig /\ is_empty p_geom_orig = false /\
    Qle_bool (area p_geom_orig) epsilon = false /\
    Qeq_bool (area p_geom_orig) 0 = false /\
    other_id ∈ other_ids /\ other_id <> primary_id /\
    (t_name, Some t_union) ∈
      union_by_name
        (select_id
           (filter (fun f => box_hit (bounds p_geom_orig) f = true)
              all_gdf_2263)
           other_id) /\
    is_empty t_union = false /\
    Qle_bool
      (inter_area_of (geom_for_intersection buffer_feet p_geom_orig) t_union)
      (Py.max min_intersection_area_final epsilon) = false /\
    r = overlap_record primary_id (Py.str (nameCol prow)) other_id t_name
          (area p_geom_orig)
          (inter_area_of (geom_for_intersection buffer_feet p_geom_orig)
             t_union).
Proof.
  intros Hbuild Hr.
  apply build_longform_records in Hbuild as [->|(records & Hloop & ->)];
    [inversion Hr|].
  rewrite sort_values_elem in Hr.
  apply (for_extend_elem _ _ _ r Hloop) in Hr as (prow & ys & Hin & Hp & Hr).
  destruct (longform_primary_inv _ _ _ Hp Hr)
    as (g & other_id & ys' & Hg & He & Ha & Hoid & Ho & Hr').
  destruct (longform_other_inv _ _ _ _ _ _ _ Ho Hr')
    as (Hne & tu & ys'' & Htu & Hu & Hr'').
  destruct (longform_union_inv _ _ _ _ _ _ _ Hu Hr'')
    as (t_union & Ht & Hte & Hthr & Hz & ->).
  exists prow, g, other_id, tu.1, t_union.
  repeat split; try easy.
  destruct tu as [n u]; simpl in *. now subst.
Qed.

End LongformFacts.

(** * Properties of the two builders *)

(** C3: every long-form row records, as primary area and as denominator of
    the percentage, the area of the raw dissolved primary geometry, and
    percentage = intersection area / that area * 100, whatever buffer was
    used to compute the intersection geometry. *)
Theorem longform_denominator_is_unbuffered_area {T : Toolkit}
    (all_gdf_2263 : GeoDataFrame) (primary_id : string)
    (other_ids : list string)
    (buffer_feet min_intersection_area_final epsilon : Q)
    (max_primaries : option Z) (rows : list LongRow) (r : LongRow) :
  build_longform_for_primary all_gdf_2263 primary_id other_ids buffer_feet
    min_intersection_area_final epsilon max_primaries = Ok rows ->
  r ∈ rows ->
  exists prow p_geom_orig t_union,
    prow ∈ cap_primaries max_primaries
             (dissolve_by_name (select_id all_gdf_2263 primary_id)) /\
    geometry prow = Some p_geom_orig /\
    primary_geography_namecol r = Py.str (nameCol prow) /\
    (other_geography_namecol r, Some t_union) ∈
      union_by_name
        (select_id
           (filter (fun f => box_hit (bounds p_geom_orig) f = true)
              all_gdf_2263)
           (other_geography_id r)) /\
    intersection_area r =
      inter_area_of (geom_for_intersection buffer_feet p_geom_orig) t_union /\
    primary_area r = area p_geom_orig /\
    percentage_overlap r = (intersection_area r / area p_geom_orig * 100)%Q.
Proof.
  intros Hbuild Hr.
  destruct (longform_row_origin _ _ _ _ _ _ _ _ _ Hbuild Hr)
    as (prow & g & other_id & t_name & t_union & Hin & Hg & _ & _ & _ & _ & _
        & Htu & _ & _ & ->).
  exists prow, g, t_union. now simpl.
Qed.

Lemma longform_denominator_is_unbuffered_area_witness :
  exists prow p_geom_orig t_union,
    prow ∈ cap_primaries None (dissolve_by_name (select_id shrunk "cd")) /\
    geometry prow = Some p_geom_orig /\
    "A" = Py.str (nameCol prow) /\
    ("T", Some t_union) ∈
      union_by_name
        (select_id
           (filter (fun f => box_hit (bounds p_geom_orig) f = true) shrunk)
           "pp") /\
    2%Q = inter_area_of (geom_for_intersection (-1) p_geom_orig) t_union /\
    16%Q = area p_geom_orig /\
    (2 / 16 * 100)%Q = (2 / area p_geom_orig * 100)%Q.
Proof.
  apply (@longform_denominator_is_unbuffered_area Grid.toolkit shrunk "cd"
           ["cd"; "pp"] (-1) 1 (1 # 1000000) None
           [ mkLongRow "cd" "A" "pp" "T" 16 2 (2 / 16 * 100);
             mkLongRow "cd" "A" "pp" "U" 16 2 (2 / 16 * 100) ]
           (mkLongRow "cd" "A" "pp" "T" 16 2 (2 / 16 * 100))).
  - vm_compute. reflexivity.
  - left.
Defined.

(** ** Row order *)

Lemma ascii_compare_lt_trans a b c :
  Ascii.compare a b = Lt -> Ascii.compare b c = Lt -> Ascii.compare a c = Lt.
Proof.
  unfold Ascii.compare. rewrite !N.compare_lt_iff. apply N.lt_trans.
Qed.

Lemma string_lt_trans a b c : string_lt a b -> string_lt b c -> string_lt a c.
Proof.
  unfold string_lt. revert b c.
  induction a as [|x a IH]; intros [|y b] [|z c]; simpl; try easy.
  destruct (Ascii.compare x y) eqn:Hxy; try easy.
  - apply Ascii.compare_eq_iff in Hxy as ->.
    destruct (Ascii.compare y z); try easy. apply IH.
  - intros _. destruct (Ascii.compare y z) eqn:Hyz; try easy.
    + apply Ascii.compare_eq_iff in Hyz as <-. now rewrite Hxy.
    + now rewrite (ascii_compare_lt_trans x y z).
Qed.

Lemma string_compare_refl a : String.compare a a = Eq.
Proof.
  induction a as [|x a IH]; simpl; [easy|].
  unfold Ascii.compare. now rewrite N.compare_refl.
Qed.

Lemma row_leb_order r1 r2 : row_leb r1 r2 = true <-> row_order r1 r2.
Proof.
  unfold row_leb, row_order, string_lt.
  destruct (String.compare (primary_geography_namecol r1) _) eqn:Hn.
  - apply String.compare_eq_iff in Hn as Hn'.
    destruct (String.compare (other_geography_id r1) _) eqn:Ho.
    + apply String.compare_eq_iff in Ho as Ho'. rewrite Qle_bool_iff.
      split.
      * intros H. right. split; [easy|]. right. now split.
      * intros [H|[_ [H|[_ H]]]]; [discriminate | discriminate | exact H].
    + split; [|easy]. intros _. right. split; [easy|]. now left.
    + split; [easy|].
      intros [H|[_ [H|[Heq _]]]]; [discriminate | discriminate |].
      rewrite Heq, string_compare_refl in Ho. discriminate.
  - split; [now left | easy].
  - split; [easy|]. intros [H|[Heq _]]; [discriminate|].
    rewrite Heq, string_compare_refl in Hn. discriminate.
Qed.

Lemma row_order_trans r1 r2 r3 :
  row_order r1 r2 -> row_order r2 r3 -> row_order r1 r3.
Proof.
  unfold row_order.
  intros [H12|[E12 H12]] [H23|[E23 H23]].
  - left. eapply string_lt_trans; eauto.
  - left. now rewrite <- E23.
  - left. now rewrite E12.
  - right. split; [congruence|].
    destruct H12 as [H12|[F12 H12]], H23 as [H23|[F23 H23]].
    + left. eapply string_lt_trans; eauto.
    + left. now rewrite <- F23.
    + left. now rewrite F12.
    + right. split; [congruence|]. eapply Qle_trans; eauto.
Qed.

Lemma sort_values_sorted records : StronglySorted row_order (sort_values records).
Proof.
  unfold sort_values.
  assert (Hs : StronglySorted (fun a b => row_leb a b = true)
                 (stable_sort row_leb records)).
  { apply stable_sort_sorted; [apply row_leb_total|].
    intros a b c. rewrite !row_leb_order. apply row_order_trans. }
  induction Hs as [|r l Hs IH Hall]; constructor; [easy|].
  eapply Forall_impl; [exact Hall|].
  intros r' Hr'. now apply row_leb_order.
Qed.

(** C4: the rows of a long-form result are ordered by primary region name
    ascending, then other geography-type id ascending, then percentage
    overlap descending (each row stands in that order to every later row). *)
Theorem longform_rows_ordered {T : Toolkit}
    (all_gdf_2263 : GeoDataFrame) (primary_id : string)
    (other_ids : list string)
    (buffer_feet min_intersection_area_final epsilon : Q)
    (max_primaries : option Z) (rows : list LongRow) :
  build_longform_for_primary all_gdf_2263 primary_id other_ids buffer_feet
    min_intersection_area_final epsilon max_primaries = Ok rows ->
  StronglySorted row_order rows.
Proof.
  intros Hbuild.
  apply build_longform_records in Hbuild as [->|(records & _ & ->)].
  - constructor.
  - apply sort_values_sorted.
Qed.

Lemma longform_rows_ordered_witness : StronglySorted row_order ordered_rows.
Proof.
  apply (@longform_rows_ordered Grid.toolkit ordered "cd" ["sd"; "pp"; "cd"]
           0 1 (1 # 1000000) None ordered_rows).
  vm_compute. reflexivity.
Defined.

(** C10: the cap on the number of primary regions is applied only when it is
    strictly positive; a cap of 0 or below leaves every dissolved region in
    the loop, and both builds then return what they return without a cap. *)
Theorem nonpositive_cap_is_no_cap {T : Toolkit}
    (all_gdf_2263 : GeoDataFrame) (primary_id : string)
    (other_ids : list string)
    (buffer_feet min_intersection_area_final epsilon : Q) (n : Z) :
  (n <= 0)%Z ->
  (forall df : GeoDataFrame, cap_primaries (Some n) df = df) /\
  build_longform_for_primary all_gdf_2263 primary_id other_ids buffer_feet
    min_intersection_area_final epsilon (Some n)
  = build_longform_for_primary all_gdf_2263 primary_id other_ids buffer_feet
      min_intersection_area_final epsilon None /\
  build_wide_for_primary all_gdf_2263 primary_id other_ids buffer_feet
    min_intersection_area_final epsilon (Some n)
  = build_wide_for_primary all_gdf_2263 primary_id other_ids buffer_feet
      min_intersection_area_final epsilon None.
Proof.
  intros Hn.
  assert (Hcap : forall df : GeoDataFrame, cap_primaries (Some n) df = df).
  { intros df. unfold cap_primaries.
    destruct (0 <? n)%Z eqn:E; [|easy]. apply Z.ltb_lt in E. lia. }
  split; [exact Hcap|].
  unfold build_longform_for_primary, build_wide_for_primary.
  now rewrite Hcap.
Qed.

Lemma nonpositive_cap_is_no_cap_witness :
  (forall df : list (@Feature Grid.toolkit), cap_primaries (Some (-3)%Z) df = df) /\
  build_longform_for_primary ordered "cd" ["sd"; "pp"; "cd"] 0 1 (1 # 1000000)
    (Some (-3)%Z)
  = build_longform_for_primary ordered "cd" ["sd"; "pp"; "cd"] 0 1
      (1 # 1000000) None /\
  build_wide_for_primary ordered "cd" ["sd"; "pp"; "cd"] 0 1 (1 # 1000000)
    (Some (-3)%Z)
  = build_wide_for_primary ordered "cd" ["sd"; "pp"; "cd"] 0 1 (1 # 1000000)
      None.
Proof.
  apply (@nonpositive_cap_is_no_cap Grid.toolkit ordered "cd"
           ["sd"; "pp"; "cd"] 0 1 (1 # 1000000) (-3)%Z).
  lia.
Defined.

(** A positive cap keeps the first regions only. *)
Example positive_cap_applies :
  build_wide_for_primary ordered "cd" ["sd"; "pp"; "cd"] 0 1 (1 # 1000000)
    (Some 1%Z)
  = Ok {| columns := ["cd"; "pp"; "sd"]; cells := [["A"; "T;U"; "S"]] |}.
Proof. vm_compute. reflexivity. Qed.

(** C7: a requested primary id with no feature in the collection yields an
    empty long-form and an empty wide result without raising, so the driver
    writes no file for it, and the run over the other ids is what it is
    without that id; [main] itself never schedules such an id; dissolving an
    empty subset gives an empty frame. *)
Theorem missing_primary_id_builds_nothing {T : Toolkit}
    (args : Args) (target_ids : list string) (p : string) :
  select_id (boundaries args) p = [] ->
  dissolve_by_name (select_id (boundaries args) p) = [] /\
  build_longform_for_primary (boundaries args) p target_ids
    (buffer_feet args) (min_area_final args) (epsilon args)
    (max_primaries args) = Ok [] /\
  build_wide_for_primary (boundaries args) p target_ids
    (buffer_feet args) (min_area_final args) (epsilon args)
    (max_primaries args) = Ok empty_wide /\
  (forall written, build_primary args target_ids written p = (written, None)) /\
  (forall written before after,
     build_primaries args target_ids written (before ++ p :: after)
     = build_primaries args target_ids written (before ++ after)) /\
  p ∉ restrict_ids (primary_only args) (geography_ids args).
Proof.
  intros Hnone.
  assert (Hl : build_longform_for_primary (boundaries args) p target_ids
                 (buffer_feet args) (min_area_final args) (epsilon args)
                 (max_primaries args) = Ok []).
  { unfold build_longform_for_primary. now rewrite Hnone. }
  assert (Hw : build_wide_for_primary (boundaries args) p target_ids
                 (buffer_feet args) (min_area_final args) (epsilon args)
                 (max_primaries args) = Ok empty_wide).
  { unfold build_wide_for_primary. now rewrite Hnone. }
  assert (Hstep : forall written,
             build_primary args target_ids written p = (written, None)).
  { intros written. unfold build_primary. now rewrite Hl, Hw. }
  repeat split; try easy.
  - now rewrite Hnone.
  - intros written before after. revert written.
    induction before as [|q before IH]; intros written; simpl.
    + now rewrite Hstep.
    + destruct (build_primary args target_ids written q) as [w [e|]];
        [easy | apply IH].
  - assert (Hids : p ∉ geography_ids args).
    { unfold geography_ids. rewrite list_elem_of_filter, sorted_set_elem.
      rewrite list_elem_of_fmap. intros (_ & f & -> & Hf).
      assert (Hin : f ∈ select_id (boundaries args) (id f))
        by now apply select_id_elem.
      rewrite Hnone in Hin. inversion Hin. }
    unfold restrict_ids. destruct (primary_only args) as [[|g gs]|]; try easy.
    rewrite list_elem_of_filter. now intros [? _].
Qed.

Lemma missing_primary_id_builds_nothing_witness :
  dissolve_by_name (select_id (boundaries tiny_args) "zz") = [] /\
  build_longform_for_primary (boundaries tiny_args) "zz" ["cd"; "pp"]
    (buffer_feet tiny_args) (min_area_final tiny_args) (epsilon tiny_args)
    (max_primaries tiny_args) = Ok [] /\
  build_wide_for_primary (boundaries tiny_args) "zz" ["cd"; "pp"]
    (buffer_feet tiny_args) (min_area_final tiny_args) (epsilon tiny_args)
    (max_primaries tiny_args) = Ok empty_wide /\
  (forall written,
     build_primary tiny_args ["cd"; "pp"] written "zz" = (written, None)) /\
  (forall written before after,
     build_primaries tiny_args ["cd"; "pp"] written (before ++ "zz" :: after)
     = build_primaries tiny_args ["cd"; "pp"] written (before ++ after)) /\
  "zz" ∉ restrict_ids (primary_only tiny_args) (geography_ids tiny_args).
Proof.
  apply (@missing_primary_id_builds_nothing Grid.toolkit tiny_args
           ["cd"; "pp"] "zz").
  reflexivity.
Defined.

(** The whole run: files for [cd] only, then the metadata record. *)
Example main_skips_missing_id :
  main tiny_args
  = ([ LongformCsv "out/longform/longform_cd_crosswalk.csv"
         [ mkLongRow "cd" "A" "pp" "T" 1 1 (1 / 1 * 100) ];
       WideCsv "out/wide/wide_cd_crosswalk.csv"
         {| columns := ["cd"; "pp"]; cells := [["A"; "T"]] |};
       MetaJson "out/crosswalks_meta.json" 0 (1 # 2) (1 # 1000000)
         ["cc_upcoming"] ["cd"] ["cd"; "pp"] ],
     None).
Proof. vm_compute. reflexivity. Qed.

(** ** Raising the minimum final area *)

Lemma Qle_bool_false (x y : Q) : Qle_bool x y = false <-> (y < x)%Q.
Proof.
  split.
  - intros H. apply Qnot_le_lt. intros Hle. apply Qle_bool_iff in Hle.
    congruence.
  - intros H. destruct (Qle_bool x y) eqn:E; [|easy].
    apply Qle_bool_iff in E. now apply Qlt_not_le in H.
Qed.

Lemma py_max_mono (m1 m2 e : Q) :
  (m1 <= m2)%Q -> (Py.max m1 e <= Py.max m2 e)%Q.
Proof.
  intros Hm. unfold Py.max.
  destruct (Qle_bool e m1) eqn:E1, (Qle_bool e m2) eqn:E2;
    rewrite ?Qle_bool_iff, ?Qle_bool_false in *.
  - exact Hm.
  - apply Qlt_le_weak. eapply Qle_lt_trans; eauto.
  - exact E2.
  - apply Qle_refl.
Qed.

(** A pair rejected at the lower threshold is rejected at the higher one. *)
Lemma threshold_mono (m1 m2 e x : Q) :
  (m1 <= m2)%Q ->
  Qle_bool x (Py.max m1 e) = true -> Qle_bool x (Py.max m2 e) = true.
Proof.
  intros Hm. rewrite !Qle_bool_iff. intros Hx.
  eapply Qle_trans; [exact Hx | now apply py_max_mono].
Qed.

Section Monotone.

Context {T : Toolkit}.
Variables (all_gdf_2263 : GeoDataFrame) (primary_id : string)
  (other_ids : list string) (buffer_feet epsilon m1 m2 : Q).
Hypothesis Hm : (m1 <= m2)%Q.

Lemma longform_union_mono p_name p_area pgi other_id tu ys :
  longform_union primary_id m1 epsilon p_name p_area pgi other_id tu = Ok ys ->
  exists zs,
    longform_union primary_id m2 epsilon p_name p_area pgi other_id tu = Ok zs
    /\ zs ⊆ ys.
Proof.
  unfold longform_union.
  destruct tu.2 as [t_union|]; [|intros [= <-]; now exists []].
  destruct (is_empty t_union); [intros [= <-]; now exists []|].
  destruct (Qle_bool _ (Py.max m1 epsilon)) eqn:E1.
  - rewrite (threshold_mono m1 m2 _ _ Hm E1). intros [= <-]. now exists [].
  - intros Hys. destruct (Qle_bool _ (Py.max m2 epsilon)).
    + exists []. split; [easy|]. intros x Hx. inversion Hx.
    + now exists ys.
Qed.

Lemma longform_other_mono candidate_gdf p_name p_area pgi other_id ys :
  longform_other primary_id m1 epsilon candidate_gdf p_name p_area pgi other_id
  = Ok ys ->
  exists zs,
    longform_other primary_id m2 epsilon candidate_gdf p_name p_area pgi
      other_id = Ok zs
    /\ zs ⊆ ys.
Proof.
  unfold longform_other.
  destruct (String.eqb other_id primary_id); [intros [= <-]; now exists []|].
  destruct (is_nil _); [intros [= <-]; now exists []|].
  apply for_extend_mono. intros tu ys' _. apply longform_union_mono.
Qed.

Lemma longform_primary_mono prow ys :
  longform_primary all_gdf_2263 primary_id other_ids buffer_feet m1 epsilon prow
  = Ok ys ->
  exists zs,
    longform_primary all_gdf_2263 primary_id other_ids buffer_feet m2 epsilon
      prow = Ok zs
    /\ zs ⊆ ys.
Proof.
  unfold longform_primary.
  destruct (geometry prow) as [g|]; [|intros [= <-]; now exists []].
  destruct (is_empty g); [intros [= <-]; now exists []|].
  destruct (Qle_bool (area g) epsilon); [intros [= <-]; now exists []|].
  rewrite iloc_sindex. py_simpl.
  apply for_extend_mono. intros other_id ys' _. apply longform_other_mono.
Qed.

Lemma build_longform_mono max_primaries rows1 :
  build_longform_for_primary all_gdf_2263 primary_id other_ids buffer_feet
    m1 epsilon max_primaries = Ok rows1 ->
  exists rows2,
    build_longform_for_primary all_gdf_2263 primary_id other_ids buffer_feet
      m2 epsilon max_primaries = Ok rows2
    /\ rows2 ⊆ rows1.
Proof.
  unfold build_longform_for_primary.
  destruct (is_nil (select_id _ _)); [intros [= <-]; now exists []|].
  py_simpl.
  destruct (for_extend (longform_primary _ _ _ _ m1 _) _) as [records1|] eqn:E1;
    [|discriminate].
  destruct (for_extend_mono _
              (longform_primary all_gdf_2263 primary_id other_ids buffer_feet
                 m2 epsilon) _ _
              (fun prow ys _ => longform_primary_mono prow ys) E1)
    as (records2 & -> & Hsub).
  intros Hrows1.
  exists (if is_nil records2 then [] else sort_values records2).
  split; [now destruct (is_nil records2)|].
  intros r Hr. destruct records2 as [|r2 records2]; [inversion Hr|].
  cbn [is_nil] in Hr. rewrite sort_values_elem in Hr. apply Hsub in Hr.
  destruct records1 as [|r1 records1]; [inversion Hr|].
  cbn [is_nil] in Hrows1. injection Hrows1 as <-. now rewrite sort_values_elem.
Qed.

Lemma wide_keep_mono pgi tu ys :
  wide_keep m1 epsilon pgi tu = Ok ys ->
  exists zs, wide_keep m2 epsilon pgi tu = Ok zs /\ zs ⊆ ys.
Proof.
  unfold wide_keep. destruct tu.2 as [t_union|]; [|discriminate].
  destruct (Qle_bool _ (Py.max m1 epsilon)) eqn:E1; simpl.
  - rewrite (threshold_mono m1 m2 _ _ Hm E1). intros [= <-]. now exists [].
  - intros [= <-]. destruct (Qle_bool _ (Py.max m2 epsilon)); simpl.
    + exists []. split; [easy|]. intros x Hx. inversion Hx.
    + now exists [tu.1].
Qed.

Lemma wide_keep_names_mono candidate_gdf pgi other_id ks1 :
  wide_keep_names m1 epsilon candidate_gdf pgi other_id = Ok ks1 ->
  exists ks2,
    wide_keep_names m2 epsilon candidate_gdf pgi other_id = Ok ks2
    /\ ks2 ⊆ ks1.
Proof.
  unfold wide_keep_names. apply for_extend_mono.
  intros tu ys _. apply wide_keep_mono.
Qed.

End Monotone.

(** * The wide table, cell by cell *)

Lemma Forall2_elem_impl {A B} (R R' : A -> B -> Prop) l k :
  Forall2 R l k ->
  (forall x y, x ∈ l -> R x y -> R' x y) ->
  Forall2 R' l k.
Proof.
  induction 1 as [|x y l k Hxy Hlk IH]; intros Himpl; constructor.
  - apply Himpl; [left | easy].
  - apply IH. intros x' y' Hin. apply Himpl. now right.
Qed.

(** A loop whose every turn appends exactly one item pairs its input with
    its output. *)
Lemma for_extend_one_each {A B} (f : A -> result (list B))
    (R : A -> B -> Prop) l :
  (forall x, x ∈ l -> exists y, f x = Ok [y] /\ R x y) ->
  exists out, for_extend f l = Ok out /\ Forall2 R l out.
Proof.
  induction l as [|x l IH]; intros Hone.
  - exists []. split; [easy | constructor].
  - destruct (Hone x) as (y & Hx & Hxy); [left|].
    destruct IH as (out & Hl & HF); [intros; apply Hone; now right|].
    exists (y :: out). split; [|now constructor].
    now rewrite (for_extend_cons_Ok f x l [y] out).
Qed.

Section WideFacts.

Context {T : Toolkit}.
Variables (all_gdf_2263 : GeoDataFrame) (primary_id : string)
  (other_ids : list string)
  (buffer_feet min_intersection_area_final epsilon : Q).

Hypothesis Hunion : union_all_live.

Local Abbreviation wide_cell_of :=
  (wide_cell_of all_gdf_2263 buffer_feet min_intersection_area_final epsilon).
Local Abbreviation wide_row_of :=
  (wide_row_of all_gdf_2263 primary_id other_ids buffer_feet
     min_intersection_area_final epsilon).
Local Abbreviation wide_dict_of :=
  (wide_dict_of all_gdf_2263 primary_id other_ids buffer_feet
     min_intersection_area_final epsilon).

(** Every union formed from index candidates is live. *)
Lemma candidate_union_live box other_id tu :
  tu ∈ union_by_name
         (select_id (filter (fun f => box_hit box f = true) all_gdf_2263)
            other_id) ->
  exists u, tu.2 = Some u /\ is_empty u = false.
Proof.
  rewrite union_by_name_elem. intros [Hkey ->].
  apply group_keys_elem in Hkey as (f & Hf & Hname).
  apply Hunion.
  - intros Hnil. apply fmap_nil_inv in Hnil.
    assert (Hin : f ∈ group_rows (select_id
              (filter (fun f => box_hit box f = true) all_gdf_2263) other_id)
              tu.1) by now apply group_rows_elem.
    rewrite Hnil in Hin. inversion Hin.
  - intros o Ho. apply list_elem_of_fmap in Ho as (f' & -> & Hf').
    apply group_rows_elem in Hf' as [_ Hf'].
    apply select_id_elem in Hf' as [_ Hf'].
    apply (list_elem_of_filter (fun f => box_hit box f = true)) in Hf'
      as [Hhit _].
    exact (box_hit_live _ _ Hhit).
Qed.

Lemma wide_keep_names_total box pgi other_id :
  exists ks,
    wide_keep_names min_intersection_area_final epsilon
      (filter (fun f => box_hit box f = true) all_gdf_2263) pgi other_id
    = Ok ks.
Proof.
  unfold wide_keep_names. apply for_extend_total. intros tu Htu.
  destruct (candidate_union_live _ _ _ Htu) as (u & Hu & _).
  unfold wide_keep. rewrite Hu. destruct (negb _); eauto.
Qed.

(** What the dict of one row holds once the loop over the ids is done. *)
Lemma wide_record_spec candidate_gdf pgi ids :
  (forall c, c ∈ ids -> c <> primary_id ->
     exists ks,
       wide_keep_names min_intersection_area_final epsilon candidate_gdf pgi c
       = Ok ks) ->
  forall record,
  exists record',
    wide_record primary_id min_intersection_area_final epsilon candidate_gdf
      pgi record ids = Ok record' /\
    (forall c, c ∈ ids -> c <> primary_id ->
       exists ks,
         wide_keep_names min_intersection_area_final epsilon candidate_gdf pgi c
         = Ok ks /\
         record' !! c = Some (cell_text ks)) /\
    (forall c, c ∉ ids \/ c = primary_id -> record' !! c = record !! c).
Proof.
  induction ids as [|other_id rest IH]; intros Htotal record.
  - exists record. split; [easy|]. split; [|easy].
    intros c Hc. inversion Hc.
  - assert (Hrest : forall c, c ∈ rest -> c <> primary_id ->
              exists ks,
                wide_keep_names min_intersection_area_final epsilon
                  candidate_gdf pgi c = Ok ks)
      by (intros c Hc; apply Htotal; now right).
    simpl. destruct (String.eqb_spec other_id primary_id) as [->|Hne].
    + destruct (IH Hrest record) as (record' & Hrun & Hin & Hout).
      exists record'. split; [easy|]. split.
      * intros c Hc Hcp. apply Hin; [|easy].
        apply elem_of_cons in Hc as [->|Hc]; easy.
      * intros c [Hc|Hc]; apply Hout; [left|now right].
        intros Hc'. apply Hc. now right.
    + destruct (Htotal other_id ltac:(left) Hne) as [ks Hks].
      py_simpl. rewrite Hks.
      destruct (IH Hrest (<[other_id := cell_text ks]> record))
        as (record' & Hrun & Hin & Hout).
      exists record'. split; [easy|]. split.
      * intros c Hc Hcp. destruct (decide (c ∈ rest)) as [Hcr|Hcr].
        { now apply Hin. }
        apply elem_of_cons in Hc as [->|Hc]; [|easy].
        exists ks. split; [easy|].
        rewrite Hout by now left. apply lookup_insert_eq.
      * intros c Hc.
        assert (Hc' : c ∉ rest \/ c = primary_id).
        { destruct Hc as [Hc|Hc]; [left|now right].
          intros Hc'. apply Hc. now right. }
        rewrite (Hout c Hc'). apply lookup_insert_ne.
        destruct Hc as [Hc| ->]; [|easy].
        intros ->. apply Hc. left.
Qed.

Lemma wide_primary_live prow :
  live prow ->
  exists record,
    wide_primary all_gdf_2263 primary_id other_ids buffer_feet
      min_intersection_area_final epsilon prow = Ok [record] /\
    wide_dict_of prow record.
Proof.
  intros (g & Hg & He). unfold wide_primary. rewrite Hg, He, iloc_sindex.
  py_simpl.
  destruct (wide_record_spec
              (filter (fun f => box_hit (bounds g) f = true) all_gdf_2263)
              (geom_for_intersection buffer_feet g) other_ids
              (fun c _ _ => wide_keep_names_total _ _ c)
              {[ primary_id := Py.str (nameCol prow) ]})
    as (record & -> & Hin & Hout).
  exists record. split; [easy|]. exists g. split; [easy|]. split.
  - rewrite Hout by now right. apply lookup_singleton_eq.
  - intros c Hc Hcp. destruct (Hin c Hc Hcp) as (ks & Hks & Hlook).
    exists (cell_text ks). split; [|easy]. now exists ks.
Qed.

Lemma wide_primary_dead prow :
  ~ live prow ->
  wide_primary all_gdf_2263 primary_id other_ids buffer_feet
    min_intersection_area_final epsilon prow = Ok [].
Proof.
  intros Hdead. unfold wide_primary.
  destruct (geometry prow) as [g|] eqn:Hg; [|easy].
  destruct (is_empty g) eqn:He; [easy|].
  exfalso. apply Hdead. now exists g.
Qed.

(** Reading one dict under the column labels. *)
Lemma wide_row_read prow record :
  wide_dict_of prow record ->
  exists row,
    for_each
      (fun c => match record !! c with
                | Some v => Ok v
                | None => Raise KeyError
                end)
      (wide_columns primary_id other_ids) = Ok row /\
    wide_row_of prow row.
Proof.
  intros (g & Hg & Hp & Hcells). unfold wide_columns.
  set (cols := sorted (filter (fun g => g <> primary_id) other_ids)).
  assert (Hcols : forall c, c ∈ cols -> c ∈ other_ids /\ c <> primary_id).
  { intros c Hc. unfold cols in Hc. rewrite sorted_elem in Hc.
    apply (list_elem_of_filter (fun g => g <> primary_id)) in Hc. tauto. }
  destruct (for_each_total
              (fun c => match record !! c with
                        | Some v => Ok v
                        | None => Raise KeyError
                        end) cols) as (others & Hrun & HF).
  { intros c Hc. destruct (Hcols c Hc) as [Hin Hne].
    destruct (Hcells c Hin Hne) as (cell & _ & ->). now exists cell. }
  exists (Py.str (nameCol prow) :: others). split.
  - py_simpl. now rewrite Hp, Hrun.
  - exists g. split; [easy|]. exists others. split; [easy|].
    eapply Forall2_elem_impl; [exact HF|].
    intros c v Hc Hv. destruct (Hcols c Hc) as [Hin Hne].
    destruct (Hcells c Hin Hne) as (cell & Hcell & Hlook).
    cbv beta in Hv. rewrite Hlook in Hv. now injection Hv as <-.
Qed.

Lemma select_columns_rows regions rows :
  Forall2 wide_dict_of regions rows ->
  exists data,
    select_columns (wide_columns primary_id other_ids) rows = Ok data /\
    Forall2 wide_row_of regions data.
Proof.
  induction 1 as [|prow record regions rows Hd _ IH].
  - exists []. split; [easy | constructor].
  - destruct IH as (data & Hrun & HF).
    destruct (wide_row_read prow record Hd) as (row & Hrow & Hspec).
    exists (row :: data). split; [|now constructor].
    unfold select_columns in *. py_simpl. now rewrite Hrow, Hrun.
Qed.

Lemma cap_primaries_nil max_primaries :
  cap_primaries max_primaries ([] : GeoDataFrame) = [].
Proof.
  destruct max_primaries as [n|]; simpl; [|easy].
  destruct (0 <? n)%Z; [|easy]. apply take_nil.
Qed.

(** The wide build always completes, and its table has exactly one row per
    processed region with a live geometry, in loop order. *)
Lemma build_wide_table max_primaries :
  exists tbl,
    build_wide_for_primary all_gdf_2263 primary_id other_ids buffer_feet
      min_intersection_area_final epsilon max_primaries = Ok tbl /\
    Forall2 wide_row_of
      (filter live
         (cap_primaries max_primaries
            (dissolve_by_name (select_id all_gdf_2263 primary_id))))
      (cells tbl) /\
    (cells tbl <> [] -> columns tbl = wide_columns primary_id other_ids).
Proof.
  unfold build_wide_for_primary.
  destruct (is_nil (select_id all_gdf_2263 primary_id)) eqn:Hsrc.
  - apply is_nil_true in Hsrc. rewrite Hsrc.
    exists empty_wide. split; [easy|]. split; [|easy].
    unfold dissolve_by_name. simpl. rewrite cap_primaries_nil. constructor.
  - set (processed := cap_primaries _ _).
    destruct (for_extend_one_each
                (wide_primary all_gdf_2263 primary_id other_ids buffer_feet
                   min_intersection_area_final epsilon)
                wide_dict_of (filter live processed))
      as (rows & Hrows & HF).
    { intros prow Hprow. apply list_elem_of_filter in Hprow as [Hlive _].
      now apply wide_primary_live. }
    rewrite for_extend_skip in Hrows
      by (intros prow _ Hdead; now apply wide_primary_dead).
    py_simpl. rewrite Hrows.
    destruct (select_columns_rows _ _ HF) as (data & Hdata & HF').
    destruct rows as [|record rows]; simpl.
    + inversion HF; subst. exists empty_wide.
      split; [easy|]. split; [constructor | easy].
    + rewrite Hdata. eexists. split; [reflexivity|]. now split.
Qed.

End WideFacts.

(** * The grid toolkit obeys the toolkit facts used below *)

Lemma grid_union_all_live : @union_all_live Grid.toolkit.
Proof.
  intros gs Hne Hall. simpl. unfold Grid.union_all, Grid.is_empty.
  eexists. split; [reflexivity|].
  destruct gs as [|o gs]; [easy|].
  destruct (Hall o) as (g & -> & Hg); [left|].
  destruct g as [|c g]; [discriminate Hg|].
  set (l := remove_dups _).
  assert (Hc : c ∈ l) by (unfold l; rewrite elem_of_remove_dups; left).
  destruct l; [inversion Hc | easy].
Qed.

Lemma grid_area_nonneg : @area_nonneg Grid.toolkit.
Proof.
  intros g. simpl. unfold Grid.area.
  change 0%Q with (inject_Z 0). rewrite <- Zle_Qle. lia.
Qed.

Lemma grid_area_intersection_le : @area_intersection_le Grid.toolkit.
Proof.
  intros a b. simpl. unfold Grid.area, Grid.intersection.
  rewrite <- Zle_Qle. apply inj_le. apply List.filter_length_le.
Qed.

(** C9: the wide build returns a table with exactly one row for every
    processed dissolved region whose geometry is neither null nor empty, in
    loop order, whatever the cells hold; so a primary type can have a
    non-empty wide table (and a wide file) while its long-form result is
    empty, as for district [A] under a threshold no overlap survives. *)
Theorem wide_row_for_every_live_region {T : Toolkit}
    (all_gdf_2263 : GeoDataFrame) (primary_id : string)
    (other_ids : list string)
    (buffer_feet min_intersection_area_final epsilon : Q)
    (max_primaries : option Z) :
  union_all_live ->
  (exists tbl,
     build_wide_for_primary all_gdf_2263 primary_id other_ids buffer_feet
       min_intersection_area_final epsilon max_primaries = Ok tbl /\
     Forall2
       (wide_row_of all_gdf_2263 primary_id other_ids buffer_feet
          min_intersection_area_final epsilon)
       (filter live
          (cap_primaries max_primaries
             (dissolve_by_name (select_id all_gdf_2263 primary_id))))
       (cells tbl) /\
     (cells tbl <> [] -> columns tbl = wide_columns primary_id other_ids)) /\
  (build_longform_for_primary tiny "cd" ["cd"; "pp"] 0 5 (1 # 1000000) None
   = Ok [] /\
   build_wide_for_primary tiny "cd" ["cd"; "pp"] 0 5 (1 # 1000000) None
   = Ok {| columns := ["cd"; "pp"]; cells := [["A"; ""]] |} /\
   build_primary strict_args ["cd"; "pp"] [] "cd"
   = ([ WideCsv "out/wide/wide_cd_crosswalk.csv"
          {| columns := ["cd"; "pp"]; cells := [["A"; ""]] |} ],
      None)).
Proof.
  intros Hunion. split.
  - now apply build_wide_table.
  - repeat split; vm_compute; reflexivity.
Qed.

Lemma wide_row_for_every_live_region_witness :
  (exists tbl,
     build_wide_for_primary ordered "cd" ["sd"; "pp"; "cd"] 0 1 (1 # 1000000)
       None = Ok tbl /\
     Forall2
       (wide_row_of ordered "cd" ["sd"; "pp"; "cd"] 0 1 (1 # 1000000))
       (filter live
          (cap_primaries None (dissolve_by_name (select_id ordered "cd"))))
       (cells tbl) /\
     (cells tbl <> [] -> columns tbl = wide_columns "cd" ["sd"; "pp"; "cd"])) /\
  (build_longform_for_primary tiny "cd" ["cd"; "pp"] 0 5 (1 # 1000000) None
   = Ok [] /\
   build_wide_for_primary tiny "cd" ["cd"; "pp"] 0 5 (1 # 1000000) None
   = Ok {| columns := ["cd"; "pp"]; cells := [["A"; ""]] |} /\
   build_primary strict_args ["cd"; "pp"] [] "cd"
   = ([ WideCsv "out/wide/wide_cd_crosswalk.csv"
          {| columns := ["cd"; "pp"]; cells := [["A"; ""]] |} ],
      None)).
Proof.
  apply (@wide_row_for_every_live_region Grid.toolkit ordered "cd"
           ["sd"; "pp"; "cd"] 0 1 (1 # 1000000) None).
  exact grid_union_all_live.
Defined.

(** ** Null and empty geometries *)

Lemma not_live_null_or_empty {T : Toolkit} (o : option Geom) :
  ~ live_geom o <-> null_or_empty o.
Proof.
  unfold live_geom, null_or_empty. destruct o as [g|].
  - destruct (is_empty g) eqn:E.
    + split; [intros _; right; now exists g|].
      intros _ (g' & [= <-] & H). congruence.
    + split; [intros H; exfalso; apply H; now exists g|].
      intros [H|(g' & [= <-] & H)]; congruence.
  - split; [now left|]. intros _ (g & H & _). discriminate.
Qed.

Section NullOrEmpty.

Context {T : Toolkit}.
Variables (all_gdf_2263 : GeoDataFrame) (primary_id : string)
  (other_ids : list string)
  (buffer_feet min_intersection_area_final epsilon : Q).

Lemma longform_primary_dead prow :
  null_or_empty (geometry prow) ->
  longform_primary all_gdf_2263 primary_id other_ids buffer_feet
    min_intersection_area_final epsilon prow = Ok [].
Proof.
  unfold longform_primary. intros [->|(g & -> & ->)]; reflexivity.
Qed.

Lemma longform_union_dead p_name p_area pgi other_id tu :
  null_or_empty tu.2 ->
  longform_union primary_id min_intersection_area_final epsilon p_name p_area
    pgi other_id tu = Ok [].
Proof.
  unfold longform_union. intros [->|(g & -> & ->)]; reflexivity.
Qed.

End NullOrEmpty.

(** C8: in both builds a dissolved primary region whose geometry is null or
    empty adds nothing and raises nothing, so each loop over the regions
    runs as if those regions were absent; in the long-form build the same
    holds for a null or empty name union; in the wide build every union
    formed from the index candidates is a live geometry, and the build
    always returns a table. *)
Theorem null_or_empty_geometry_is_skipped {T : Toolkit}
    (all_gdf_2263 : GeoDataFrame) (primary_id : string)
    (other_ids : list string)
    (buffer_feet min_intersection_area_final epsilon : Q) :
  union_all_live ->
  (forall prow,
     null_or_empty (geometry prow) ->
     longform_primary all_gdf_2263 primary_id other_ids buffer_feet
       min_intersection_area_final epsilon prow = Ok [] /\
     wide_primary all_gdf_2263 primary_id other_ids buffer_feet
       min_intersection_area_final epsilon prow = Ok []) /\
  (forall regions : GeoDataFrame,
     for_extend
       (longform_primary all_gdf_2263 primary_id other_ids buffer_feet
          min_intersection_area_final epsilon) regions
     = for_extend
         (longform_primary all_gdf_2263 primary_id other_ids buffer_feet
            min_intersection_area_final epsilon) (filter live regions) /\
     for_extend
       (wide_primary all_gdf_2263 primary_id other_ids buffer_feet
          min_intersection_area_final epsilon) regions
     = for_extend
         (wide_primary all_gdf_2263 primary_id other_ids buffer_feet
            min_intersection_area_final epsilon) (filter live regions)) /\
  (forall p_name p_area pgi other_id (unions : list (string * option Geom)),
     (forall tu, tu ∈ unions -> null_or_empty tu.2 ->
        longform_union primary_id min_intersection_area_final epsilon p_name
          p_area pgi other_id tu = Ok []) /\
     for_extend
       (longform_union primary_id min_intersection_area_final epsilon p_name
          p_area pgi other_id) unions
     = for_extend
         (longform_union primary_id min_intersection_area_final epsilon p_name
            p_area pgi other_id)
         (filter (fun tu => live_geom tu.2) unions)) /\
  (forall box other_id tu,
     tu ∈ union_by_name
            (select_id (filter (fun f => box_hit box f = true) all_gdf_2263)
               other_id) ->
     exists u, tu.2 = Some u /\ is_empty u = false) /\
  (forall max_primaries,
     exists tbl,
       build_wide_for_primary all_gdf_2263 primary_id other_ids buffer_feet
         min_intersection_area_final epsilon max_primaries = Ok tbl).
Proof.
  intros Hunion. repeat split.
  - now apply longform_primary_dead.
  - now apply wide_primary_dead, not_live_null_or_empty.
  - symmetry. apply for_extend_skip. intros prow _ Hdead.
    now apply longform_primary_dead, not_live_null_or_empty.
  - symmetry. apply for_extend_skip. intros prow _ Hdead.
    now apply wide_primary_dead.
  - intros tu _. apply longform_union_dead.
  - symmetry. apply for_extend_skip. intros tu _ Hdead.
    now apply longform_union_dead, not_live_null_or_empty.
  - intros box other_id tu. now apply candidate_union_live.
  - intros max_primaries.
    destruct (build_wide_table all_gdf_2263 primary_id other_ids buffer_feet
                min_intersection_area_final epsilon Hunion max_primaries)
      as (tbl & Htbl & _).
    now exists tbl.
Qed.

Lemma null_or_empty_geometry_is_skipped_witness :
  (forall prow : @Feature Grid.toolkit,
     null_or_empty (geometry prow) ->
     longform_primary holes "cd" ["cd"; "pp"] 0 1 (1 # 1000000) prow = Ok [] /\
     wide_primary holes "cd" ["cd"; "pp"] 0 1 (1 # 1000000) prow = Ok []) /\
  (forall regions : list (@Feature Grid.toolkit),
     for_extend (longform_primary holes "cd" ["cd"; "pp"] 0 1 (1 # 1000000))
       regions
     = for_extend (longform_primary holes "cd" ["cd"; "pp"] 0 1 (1 # 1000000))
         (filter live regions) /\
     for_extend (wide_primary holes "cd" ["cd"; "pp"] 0 1 (1 # 1000000))
       regions
     = for_extend (wide_primary holes "cd" ["cd"; "pp"] 0 1 (1 # 1000000))
         (filter live regions)) /\
  (forall p_name p_area pgi other_id
          (unions : list (string * option (@Geom Grid.toolkit))),
     (forall tu, tu ∈ unions -> null_or_empty tu.2 ->
        longform_union "cd" 1 (1 # 1000000) p_name p_area pgi other_id tu
        = Ok []) /\
     for_extend (longform_union "cd" 1 (1 # 1000000) p_name p_area pgi other_id)
       unions
     = for_extend
         (longform_union "cd" 1 (1 # 1000000) p_name p_area pgi other_id)
         (filter (fun tu => live_geom tu.2) unions)) /\
  (forall box other_id tu,
     tu ∈ union_by_name
            (select_id (filter (fun f => box_hit box f = true) holes) other_id) ->
     exists u, tu.2 = Some u /\ is_empty u = false) /\
  (forall max_primaries,
     exists tbl,
       build_wide_for_primary holes "cd" ["cd"; "pp"] 0 1 (1 # 1000000)
         max_primaries = Ok tbl).
Proof.
  apply (@null_or_empty_geometry_is_skipped Grid.toolkit holes "cd"
           ["cd"; "pp"] 0 1 (1 # 1000000)).
  exact grid_union_all_live.
Defined.

(** On [holes] both builds return the rows of district [A] alone. *)
Example holes_are_skipped :
  build_longform_for_primary holes "cd" ["cd"; "pp"] 0 1 (1 # 1000000) None
  = Ok [ mkLongRow "cd" "A" "pp" "T" 4 2 (2 / 4 * 100) ] /\
  build_wide_for_primary holes "cd" ["cd"; "pp"] 0 1 (1 # 1000000) None
  = Ok {| columns := ["cd"; "pp"]; cells := [["A"; "T"]] |}.
Proof. split; vm_compute; reflexivity. Qed.

(** ** Bounds on the percentage *)

(** With both thresholds below zero a pair that shares no area at all passes
    the threshold and is recorded with percentage 0. *)
Lemma negative_thresholds_keep_zero_overlap :
  build_longform_for_primary touching "cd" ["cd"; "pp"] 0 (-1) (-1) None
  = Ok [ mkLongRow "cd" "A" "pp" "T" 1 0 (0 / 1 * 100) ] /\
  ~ (0 < percentage_overlap (mkLongRow "cd" "A" "pp" "T" 1 0 (0 / 1 * 100)))%Q.
Proof.
  split; [vm_compute; reflexivity|].
  vm_compute. discriminate.
Qed.

(** C6, amended: when max(minimum final area, epsilon) is not negative every
    long-form row has a percentage strictly above 0; when the buffer
    distance is 0 every long-form row has a percentage of at most 100 (in
    exact arithmetic), the intersection lying inside the raw primary
    geometry. *)
Theorem percentage_bounds {T : Toolkit}
    (all_gdf_2263 : GeoDataFrame) (primary_id : string)
    (other_ids : list string)
    (buffer_feet min_intersection_area_final epsilon : Q)
    (max_primaries : option Z) (rows : list LongRow) (r : LongRow) :
  area_nonneg -> area_intersection_le ->
  build_longform_for_primary all_gdf_2263 primary_id other_ids buffer_feet
    min_intersection_area_final epsilon max_primaries = Ok rows ->
  r ∈ rows ->
  ((0 <= Py.max min_intersection_area_final epsilon)%Q ->
   (0 < percentage_overlap r)%Q) /\
  ((buffer_feet == 0)%Q -> (percentage_overlap r <= 100)%Q).
Proof.
  intros Hnonneg Hinter Hbuild Hr.
  destruct (longform_row_origin _ _ _ _ _ _ _ _ _ Hbuild Hr)
    as (prow & g & other_id & t_name & t_union & _ & _ & _ & _ & Hz & _ & _
        & _ & _ & Hthr & ->).
  simpl. apply Qle_bool_false in Hthr.
  assert (Hpos : (0 < area g)%Q).
  { destruct (Qle_lt_or_eq _ _ (Hnonneg g)) as [H|H]; [easy|].
    apply Qeq_bool_neq in Hz. exfalso. apply Hz. now symmetry. }
  split.
  - intros Hmax.
    apply Qmult_lt_0_compat; [|easy].
    apply Qmult_lt_0_compat; [|now apply Qinv_lt_0_compat].
    eapply Qle_lt_trans; eauto.
  - intros Hbuf. unfold geom_for_intersection, truthy.
    rewrite (Qeq_eq_bool _ _ Hbuf). simpl.
    assert (Hle : (inter_area_of g t_union <= area g)%Q).
    { unfold inter_area_of. destruct (is_empty _); [apply Hnonneg | apply Hinter]. }
    apply Qle_trans with (1 * 100)%Q; [|easy].
    apply Qmult_le_compat_r; [|easy].
    apply Qle_shift_div_r; [easy|]. now rewrite Qmult_1_l.
Qed.

Lemma percentage_bounds_witness :
  ((0 <= Py.max 1 (1 # 1000000))%Q -> (0 < 12 / 16 * 100)%Q) /\
  ((0 == 0)%Q -> (12 / 16 * 100 <= 100)%Q).
Proof.
  apply (@percentage_bounds Grid.toolkit ordered "cd" ["sd"; "pp"; "cd"]
           0 1 (1 # 1000000) None ordered_rows
           (mkLongRow "cd" "A" "pp" "U" 16 12 (12 / 16 * 100))).
  - exact grid_area_nonneg.
  - exact grid_area_intersection_le.
  - vm_compute. reflexivity.
  - left.
Defined.

(** ** The long-form build completes when epsilon is not negative *)

Section LongformTotal.

Context {T : Toolkit}.
Variables (all_gdf_2263 : GeoDataFrame) (primary_id : string)
  (other_ids : list string)
  (buffer_feet min_intersection_area_final epsilon : Q).
Hypothesis Heps : (0 <= epsilon)%Q.

Lemma longform_union_total p_name p_area pgi other_id tu :
  (0 < p_area)%Q ->
  exists ys,
    longform_union primary_id min_intersection_area_final epsilon p_name
      p_area pgi other_id tu = Ok ys.
Proof.
  intros Hpos. unfold longform_union, Py.div.
  destruct tu.2 as [t_union|]; [|now exists []].
  destruct (is_empty t_union); [now exists []|].
  destruct (Qle_bool _ _); [now exists []|].
  destruct (Qeq_bool p_area 0) eqn:Hz.
  - apply Qeq_bool_eq in Hz. rewrite Hz in Hpos. now apply Qlt_irrefl in Hpos.
  - py_simpl. eauto.
Qed.

Lemma longform_primary_total prow :
  exists ys,
    longform_primary all_gdf_2263 primary_id other_ids buffer_feet
      min_intersection_area_final epsilon prow = Ok ys.
Proof.
  unfold longform_primary.
  destruct (geometry prow) as [g|]; [|now exists []].
  destruct (is_empty g); [now exists []|].
  destruct (Qle_bool (area g) epsilon) eqn:Ha; [now exists []|].
  apply Qle_bool_false in Ha.
  assert (Hpos : (0 < area g)%Q) by (eapply Qle_lt_trans; eauto).
  rewrite iloc_sindex. py_simpl.
  apply for_extend_total. intros other_id _. unfold longform_other.
  destruct (String.eqb other_id primary_id); [now exists []|].
  destruct (is_nil _); [now exists []|].
  apply for_extend_total. intros tu _. now apply longform_union_total.
Qed.

Lemma build_longform_total max_primaries :
  exists rows,
    build_longform_for_primary all_gdf_2263 primary_id other_ids buffer_feet
      min_intersection_area_final epsilon max_primaries = Ok rows.
Proof.
  unfold build_longform_for_primary.
  destruct (is_nil (select_id _ _)); [now exists []|].
  destruct (for_extend_total
              (longform_primary all_gdf_2263 primary_id other_ids buffer_feet
                 min_intersection_area_final epsilon)
              (cap_primaries max_primaries
                 (dissolve_by_name (select_id all_gdf_2263 primary_id)))
              (fun prow _ => longform_primary_total prow))
    as (records & ->).
  py_simpl. destruct (is_nil records); eauto.
Qed.

End LongformTotal.

(** C5: with the collection, buffer and epsilon fixed and [m1 <= m2], a
    long-form build that completes at [m1] completes at [m2] with rows all
    among those produced at [m1] (and both builds do complete when epsilon
    is not negative); and for every primary region and other id the names
    kept for the wide cell at [m2] are among those kept at [m1], as lists
    and as the sorted sets the cell serialises (and both are computed
    whenever unions of live geometries are live). *)
Theorem threshold_monotonicity {T : Toolkit}
    (all_gdf_2263 : GeoDataFrame) (primary_id : string)
    (other_ids : list string) (buffer_feet epsilon m1 m2 : Q)
    (max_primaries : option Z) :
  (m1 <= m2)%Q ->
  (forall rows1,
     build_longform_for_primary all_gdf_2263 primary_id other_ids buffer_feet
       m1 epsilon max_primaries = Ok rows1 ->
     exists rows2,
       build_longform_for_primary all_gdf_2263 primary_id other_ids
         buffer_feet m2 epsilon max_primaries = Ok rows2 /\
       rows2 ⊆ rows1) /\
  ((0 <= epsilon)%Q ->
   exists rows1 rows2,
     build_longform_for_primary all_gdf_2263 primary_id other_ids buffer_feet
       m1 epsilon max_primaries = Ok rows1 /\
     build_longform_for_primary all_gdf_2263 primary_id other_ids buffer_feet
       m2 epsilon max_primaries = Ok rows2 /\
     rows2 ⊆ rows1) /\
  (forall (p_geom_orig : Geom) (other_id : string) ks1,
     wide_keep_names m1 epsilon
       (filter (fun f => box_hit (bounds p_geom_orig) f = true) all_gdf_2263)
       (geom_for_intersection buffer_feet p_geom_orig) other_id = Ok ks1 ->
     exists ks2,
       wide_keep_names m2 epsilon
         (filter (fun f => box_hit (bounds p_geom_orig) f = true) all_gdf_2263)
         (geom_for_intersection buffer_feet p_geom_orig) other_id = Ok ks2 /\
       ks2 ⊆ ks1 /\
       sorted_set ks2 ⊆ sorted_set ks1) /\
  (union_all_live ->
   forall (p_geom_orig : Geom) (other_id : string),
   exists ks1 ks2,
     wide_keep_names m1 epsilon
       (filter (fun f => box_hit (bounds p_geom_orig) f = true) all_gdf_2263)
       (geom_for_intersection buffer_feet p_geom_orig) other_id = Ok ks1 /\
     wide_keep_names m2 epsilon
       (filter (fun f => box_hit (bounds p_geom_orig) f = true) all_gdf_2263)
       (geom_for_intersection buffer_feet p_geom_orig) other_id = Ok ks2 /\
     sorted_set ks2 ⊆ sorted_set ks1).
Proof.
  intros Hm.
  assert (Hwide : forall (g : Geom) other_id ks1,
            wide_keep_names m1 epsilon
              (filter (fun f => box_hit (bounds g) f = true) all_gdf_2263)
              (geom_for_intersection buffer_feet g) other_id = Ok ks1 ->
            exists ks2,
              wide_keep_names m2 epsilon
                (filter (fun f => box_hit (bounds g) f = true) all_gdf_2263)
                (geom_for_intersection buffer_feet g) other_id = Ok ks2 /\
              ks2 ⊆ ks1 /\
              sorted_set ks2 ⊆ sorted_set ks1).
  { intros g other_id ks1 H1.
    destruct (wide_keep_names_mono epsilon m1 m2 Hm _ _ _ _ H1)
      as (ks2 & H2 & Hsub).
    exists ks2. repeat split; try easy.
    intros x. rewrite !sorted_set_elem. apply Hsub. }
  repeat split.
  - intros rows1. now apply build_longform_mono.
  - intros Heps.
    destruct (build_longform_total all_gdf_2263 primary_id other_ids
                buffer_feet m1 epsilon Heps max_primaries) as (rows1 & H1).
    destruct (build_longform_mono _ _ _ _ _ _ _ Hm _ _ H1) as (rows2 & H2 & Hs).
    now exists rows1, rows2.
  - exact Hwide.
  - intros Hunion g other_id.
    destruct (wide_keep_names_total all_gdf_2263 m1 epsilon Hunion (bounds g)
                (geom_for_intersection buffer_feet g) other_id) as (ks1 & H1).
    destruct (Hwide g other_id ks1 H1) as (ks2 & H2 & _ & Hs).
    now exists ks1, ks2.
Qed.

Lemma threshold_monotonicity_witness :
  exists rows1 rows2,
    build_longform_for_primary ordered "cd" ["sd"; "pp"; "cd"] 0 1
      (1 # 1000000) None = Ok rows1 /\
    build_longform_for_primary ordered "cd" ["sd"; "pp"; "cd"] 0 5
      (1 # 1000000) None = Ok rows2 /\
    rows2 ⊆ rows1.
Proof.
  apply (@threshold_monotonicity Grid.toolkit ordered "cd" ["sd"; "pp"; "cd"]
           0 (1 # 1000000) 1 5 None).
  - vm_compute. discriminate.
  - vm_compute. discriminate.
Defined.

(** The two tables of [ordered] at thresholds 1 and 5. *)
Example raising_the_threshold_drops_rows :
  build_longform_for_primary ordered "cd" ["sd"; "pp"; "cd"] 0 5 (1 # 1000000)
    None
  = Ok [ mkLongRow "cd" "A" "pp" "U" 16 12 (12 / 16 * 100);
         mkLongRow "cd" "A" "sd" "S" 16 16 (16 / 16 * 100) ] /\
  build_wide_for_primary ordered "cd" ["sd"; "pp"; "cd"] 0 1 (1 # 1000000) None
  = Ok {| columns := ["cd"; "pp"; "sd"];
          cells := [["A"; "T;U"; "S"]; ["B"; "U"; "S"]] |} /\
  build_wide_for_primary ordered "cd" ["sd"; "pp"; "cd"] 0 5 (1 # 1000000) None
  = Ok {| columns := ["cd"; "pp"; "sd"];
          cells := [["A"; "U"; "S"]; ["B"; ""; ""]] |}.
Proof. repeat split; vm_compute; reflexivity. Qed.

(** ** The two builds side by side *)

Lemma for_extend_paired {A B C} (f : A -> result (list B))
    (g : A -> result (list C)) (h : B -> C) (l : list A) :
  (forall x, x ∈ l -> exists ys, f x = Ok ys /\ g x = Ok (h <$> ys)) ->
  exists out, for_extend f l = Ok out /\ for_extend g l = Ok (h <$> out).
Proof.
  induction l as [|x l IH]; intros Hpair.
  - now exists [].
  - destruct (Hpair x) as (ys & Hf & Hg); [left|].
    destruct IH as (out & Hfl & Hgl); [intros; apply Hpair; now right|].
    exists (ys ++ out). split; [now apply for_extend_cons_Ok|].
    rewrite fmap_app. now apply for_extend_cons_Ok.
Qed.

Section SideBySide.

Context {T : Toolkit}.
Variables (all_gdf_2263 : GeoDataFrame) (primary_id : string)
  (other_ids : list string)
  (buffer_feet min_intersection_area_final epsilon : Q).

(** The long-form build leaves out a region whose raw area is at most
    epsilon. *)
Lemma longform_skips_degenerate prow p_geom_orig :
  geometry prow = Some p_geom_orig ->
  (area p_geom_orig <= epsilon)%Q ->
  longform_primary all_gdf_2263 primary_id other_ids buffer_feet
    min_intersection_area_final epsilon prow = Ok [].
Proof.
  intros Hg Ha. unfold longform_primary. rewrite Hg.
  destruct (is_empty p_geom_orig); [easy|].
  apply Qle_bool_iff in Ha. now rewrite Ha.
Qed.

(** Past the guard on the primary area the two inner loops apply the same
    threshold to the same unions: the names the wide loop keeps for an other
    id are, in order, the other names of the records the long-form loop
    appends for it. *)
Lemma inner_loops_agree box p_name p_area pgi other_id :
  union_all_live ->
  other_id <> primary_id ->
  ~ (p_area == 0)%Q ->
  exists ys,
    longform_other primary_id min_intersection_area_final epsilon
      (filter (fun f => box_hit box f = true) all_gdf_2263)
      p_name p_area pgi other_id = Ok ys /\
    wide_keep_names min_intersection_area_final epsilon
      (filter (fun f => box_hit box f = true) all_gdf_2263) pgi other_id
    = Ok (other_geography_namecol <$> ys).
Proof.
  intros Hunion Hne Hz. unfold longform_other, wide_keep_names.
  destruct (String.eqb_spec other_id primary_id) as [|_]; [easy|].
  destruct (is_nil _) eqn:Hnil.
  - apply is_nil_true in Hnil. rewrite Hnil. now exists [].
  - apply for_extend_paired. intros tu Htu.
    destruct (candidate_union_live _ Hunion _ _ _ Htu) as (u & Hu & He).
    unfold longform_union, wide_keep, Py.div. rewrite Hu, He.
    destruct (Qle_bool _ _); simpl; [now exists []|].
    destruct (Qeq_bool p_area 0) eqn:E.
    + apply Qeq_bool_eq in E. contradiction.
    + py_simpl. eexists. split; reflexivity.
Qed.

End SideBySide.

(** C1: the long-form build and the wide build part ways on a region whose
    raw area is at most epsilon.  District [A] of [tiny] has area 1; with
    epsilon 1, a buffer of 1 foot and minimum final area 0 its overlap with
    precinct [T] has area 2, above max(0, 1): the wide cell lists [T], the
    long-form table has no row at all. *)
Theorem builds_diverge_on_degenerate_primary :
  inter_area_of (@geom_for_intersection Grid.toolkit 1 (Grid.rect 0 0 1 1))
    (Grid.rect 0 0 2 1) = 2%Q /\
  Qle_bool 2 (Py.max 0 1) = false /\
  build_longform_for_primary tiny "cd" ["cd"; "pp"] 1 0 1 None = Ok [] /\
  build_wide_for_primary tiny "cd" ["cd"; "pp"] 1 0 1 None
  = Ok {| columns := ["cd"; "pp"]; cells := [["A"; "T"]] |}.
Proof. repeat split; vm_compute; reflexivity. Qed.

(** C2: a dissolved region whose raw area is at most epsilon is left out of
    the long-form table but still gets its wide row.  District [A] of
    [tiny] has area 1; with epsilon 1 (buffer and minimum final area at
    their defaults) the long-form result is empty while the wide table
    holds the row of [A], and the driver writes the wide file. *)
Theorem degenerate_primary_keeps_wide_row :
  dissolve_by_name (select_id tiny "cd")
  = [ Grid.feature "cd" "A" (Grid.rect 0 0 1 1) ] /\
  (@area Grid.toolkit (Grid.rect 0 0 1 1) <= 1)%Q /\
  build_longform_for_primary tiny "cd" ["cd"; "pp"] (-50) 100 1 None = Ok [] /\
  build_wide_for_primary tiny "cd" ["cd"; "pp"] (-50) 100 1 None
  = Ok {| columns := ["cd"; "pp"]; cells := [["A"; ""]] |} /\
  build_primary
    {| boundaries := tiny; run_dir := "out"; buffer_feet := -50;
       min_area_final := 100; epsilon := 1; exclude_ids := ["cc_upcoming"];
       primary_only := None; targets := None; max_primaries := None |}
    ["cd"; "pp"] [] "cd"
  = ([ WideCsv "out/wide/wide_cd_crosswalk.csv"
         {| columns := ["cd"; "pp"]; cells := [["A"; ""]] |} ],
     None).
Proof.
  repeat split; try (vm_compute; reflexivity).
  vm_compute. discriminate.
Qed.

(** * The scenarios of the specification, on the grid *)

(** Scenario A: two disjoint unit squares named [A] dissolve into one region
    named [A] of area 2. *)
Example scenario_a_dissolve :
  dissolve_by_name
    [ Grid.feature "cd" "A" (Grid.rect 0 0 1 1);
      Grid.feature "cd" "A" (Grid.rect 5 5 1 1) ]
  = [ Grid.feature "cd" "A" [(0, 0); (5, 5)]%Z ] /\
  @area Grid.toolkit [(0, 0); (5, 5)]%Z = 2%Q.
Proof. split; vm_compute; reflexivity. Qed.

(** Scenario B at one fifth of its size, on [nested], buffer 0.  The pair is
    one percent of the primary; it is kept under thresholds 2 and 0 and
    dropped under 6. *)
Example scenario_b_thresholds :
  build_longform_for_primary nested "cd" ["cd"; "pp"] 0 2 (1 # 1000000) None
  = Ok [ mkLongRow "cd" "P" "pp" "Q" 400 4 (4 / 400 * 100) ] /\
  (4 / 400 * 100 == 1)%Q /\
  build_wide_for_primary nested "cd" ["cd"; "pp"] 0 2 (1 # 1000000) None
  = Ok {| columns := ["cd"; "pp"]; cells := [["P"; "Q"]] |} /\
  build_longform_for_primary nested "cd" ["cd"; "pp"] 0 6 (1 # 1000000) None
  = Ok [] /\
  build_longform_for_primary nested "cd" ["cd"; "pp"] 0 0 (1 # 1000000) None
  = Ok [ mkLongRow "cd" "P" "pp" "Q" 400 4 (4 / 400 * 100) ].
Proof. repeat split; vm_compute; reflexivity. Qed.

(** * Further properties of the long-form build *)

Lemma for_extend_step_Ok {A B} (f : A -> result (list B)) l out x :
  for_extend f l = Ok out -> x ∈ l -> exists ys, f x = Ok ys /\ ys ⊆ out.
Proof.
  revert out. induction l as [|a l IH]; intros out Hout Hx; [inversion Hx|].
  apply for_extend_cons_inv in Hout as (ys & zs & Ha & Hl & ->).
  apply elem_of_cons in Hx as [->|Hx].
  - exists ys. split; [easy|]. intros y Hy. apply elem_of_app. now left.
  - destruct (IH zs Hl Hx) as (ys' & Hf & Hsub).
    exists ys'. split; [easy|]. intros y Hy. apply elem_of_app. right. auto.
Qed.


Section LongformMore.

Context {T : Toolkit}.
Variables (all_gdf_2263 : GeoDataFrame) (primary_id : string)
  (other_ids : list string)
  (buffer_feet min_intersection_area_final epsilon : Q)
  (max_primaries : option Z).

(** X1: no long-form row pairs the primary type with itself: every row
    carries the primary id of the build and an other id taken from
    [other_ids] and different from the primary id. *)
Theorem longform_rows_exclude_own_type rows r :
  build_longform_for_primary all_gdf_2263 primary_id other_ids buffer_feet
    min_intersection_area_final epsilon max_primaries = Ok rows ->
  r ∈ rows ->
  primary_geography_id r = primary_id /\
  other_geography_id r ∈ other_ids /\
  other_geography_id r <> primary_id.
Proof.
  intros Hbuild Hr.
  destruct (longform_row_origin _ _ _ _ _ _ _ _ _ Hbuild Hr)
    as (prow & g & other_id & t_name & t_union & _ & _ & _ & _ & _ & Hin & Hne
        & _ & _ & _ & ->).
  now simpl.
Qed.

(** X2: every long-form row passed both gates: its intersection area is
    strictly above max(minimum final area, epsilon), and its primary area
    is strictly above epsilon and not zero. *)
Theorem longform_rows_pass_thresholds rows r :
  build_longform_for_primary all_gdf_2263 primary_id other_ids buffer_feet
    min_intersection_area_final epsilon max_primaries = Ok rows ->
  r ∈ rows ->
  (Py.max min_intersection_area_final epsilon < intersection_area r)%Q /\
  (min_intersection_area_final < intersection_area r)%Q /\
  (epsilon < intersection_area r)%Q /\
  (epsilon < primary_area r)%Q /\
  ~ (primary_area r == 0)%Q.
Proof.
  intros Hbuild Hr.
  destruct (longform_row_origin _ _ _ _ _ _ _ _ _ Hbuild Hr)
    as (prow & g & other_id & t_name & t_union & _ & _ & _ & Ha & Hz & _ & _
        & _ & _ & Hthr & ->).
  simpl. apply Qle_bool_false in Hthr, Ha. apply Qeq_bool_neq in Hz.
  assert (Hmax : (min_intersection_area_final
                  <= Py.max min_intersection_area_final epsilon)%Q /\
                 (epsilon <= Py.max min_intersection_area_final epsilon)%Q).
  { unfold Py.max.
    destruct (Qle_bool epsilon min_intersection_area_final) eqn:E.
    - apply Qle_bool_iff in E. split; [apply Qle_refl | easy].
    - apply Qle_bool_false in E. split; [now apply Qlt_le_weak | apply Qle_refl]. }
  destruct Hmax as [Hm He].
  repeat split; try easy; eapply Qle_lt_trans; eauto.
Qed.

(** X3: the long-form table misses no surviving pair: for a processed
    region with a live geometry and area above epsilon, an other id of the
    list different from the primary id, and a live name union among the
    index candidates whose intersection area is above the threshold, the
    record of that pair is a row of every completed build. *)
Theorem longform_keeps_every_surviving_pair rows prow p_geom_orig other_id
    t_name t_union :
  build_longform_for_primary all_gdf_2263 primary_id other_ids buffer_feet
    min_intersection_area_final epsilon max_primaries = Ok rows ->
  prow ∈ cap_primaries max_primaries
           (dissolve_by_name (select_id all_gdf_2263 primary_id)) ->
  geometry prow = Some p_geom_orig ->
  is_empty p_geom_orig = false ->
  (epsilon < area p_geom_orig)%Q ->
  other_id ∈ other_ids ->
  other_id <> primary_id ->
  (t_name, Some t_union) ∈
    union_by_name
      (select_id
         (filter (fun f => box_hit (bounds p_geom_orig) f = true) all_gdf_2263)
         other_id) ->
  is_empty t_union = false ->
  (Py.max min_intersection_area_final epsilon
   < inter_area_of (geom_for_intersection buffer_feet p_geom_orig) t_union)%Q ->
  overlap_record primary_id (Py.str (nameCol prow)) other_id t_name
    (area p_geom_orig)
    (inter_area_of (geom_for_intersection buffer_feet p_geom_orig) t_union)
  ∈ rows.
Proof.
  intros Hbuild Hprow Hg He Ha Hoid Hne Htu Hte Hthr.
  apply Qle_bool_false in Ha, Hthr.
  unfold build_longform_for_primary in Hbuild.
  destruct (is_nil (select_id all_gdf_2263 primary_id)) eqn:Hsrc.
  { apply is_nil_true in Hsrc. rewrite Hsrc in Hprow.
    unfold dissolve_by_name in Hprow. simpl in Hprow.
    rewrite cap_primaries_nil in Hprow. inversion Hprow. }
  py_simpl.
  destruct (for_extend _ _) as [records|] eqn:Hloop; [|discriminate].
  destruct (for_extend_step_Ok _ _ _ _ Hloop Hprow) as (ys & Hp & Hsub).
  unfold longform_primary in Hp. rewrite Hg, He, Ha, iloc_sindex in Hp.
  py_simpl.
  destruct (for_extend_step_Ok _ _ _ _ Hp Hoid) as (ys' & Ho & Hsub').
  unfold longform_other in Ho.
  destruct (String.eqb_spec other_id primary_id) as [|_]; [easy|].
  destruct (is_nil (select_id _ other_id)) eqn:Hnil.
  { apply is_nil_true in Hnil. rewrite Hnil in Htu. inversion Htu. }
  destruct (for_extend_step_Ok _ _ _ _ Ho Htu) as (ys'' & Hu & Hsub'').
  unfold longform_union, Py.div in Hu. simpl in Hu.
  rewrite Hte, Hthr in Hu.
  destruct (Qeq_bool (area p_geom_orig) 0); py_simpl; [discriminate|].
  injection Hu as <-.
  assert (Hin : overlap_record primary_id (Py.str (nameCol prow)) other_id
                  t_name (area p_geom_orig)
                  (inter_area_of
                     (geom_for_intersection buffer_feet p_geom_orig) t_union)
                ∈ records).
  { apply Hsub, Hsub', Hsub''. left. }
  destruct records as [|r0 records]; [inversion Hin|].
  simpl in Hbuild. injection Hbuild as <-. now apply sort_values_elem.
Qed.


End LongformMore.

Lemma longform_rows_exclude_own_type_witness :
  "cd" = "cd" /\ "pp" ∈ ["sd"; "pp"; "cd"] /\ "pp" <> "cd".
Proof.
  apply (@longform_rows_exclude_own_type Grid.toolkit ordered "cd"
           ["sd"; "pp"; "cd"] 0 1 (1 # 1000000) None ordered_rows
           (mkLongRow "cd" "A" "pp" "U" 16 12 (12 / 16 * 100))).
  - vm_compute. reflexivity.
  - left.
Defined.

Lemma longform_rows_pass_thresholds_witness :
  (Py.max 1 (1 # 1000000) < 12)%Q /\ (1 < 12)%Q /\ (1 # 1000000 < 12)%Q /\
  (1 # 1000000 < 16)%Q /\ ~ (16 == 0)%Q.
Proof.
  apply (@longform_rows_pass_thresholds Grid.toolkit ordered "cd"
           ["sd"; "pp"; "cd"] 0 1 (1 # 1000000) None ordered_rows
           (mkLongRow "cd" "A" "pp" "U" 16 12 (12 / 16 * 100))).
  - vm_compute. reflexivity.
  - left.
Defined.

Lemma longform_keeps_every_surviving_pair_witness :
  overlap_record "cd" "A" "pp" "T" 16 4 ∈ ordered_rows.
Proof.
  apply (@longform_keeps_every_surviving_pair Grid.toolkit ordered "cd"
           ["sd"; "pp"; "cd"] 0 1 (1 # 1000000) None ordered_rows
           (Grid.feature "cd" "A" (Grid.rect 0 0 4 4)) (Grid.rect 0 0 4 4)
           "pp" "T" (Grid.rect 0 0 4 1)).
  - vm_compute. reflexivity.
  - vm_compute. left.
  - reflexivity.
  - reflexivity.
  - vm_compute. reflexivity.
  - right. left.
  - discriminate.
  - vm_compute. left.
  - reflexivity.
  - vm_compute. reflexivity.
Defined.


(** * The dissolver and the name-group unionizer *)

Lemma string_leb_iff a b : String.leb a b = true <-> string_lt a b \/ a = b.
Proof.
  unfold String.leb, string_lt. destruct (String.compare a b) eqn:E.
  - apply String.compare_eq_iff in E. split; [now right | easy].
  - split; [now left | easy].
  - split; [easy|]. intros [H| ->]; [easy|].
    rewrite string_compare_refl in E. discriminate.
Qed.

Lemma string_lt_irrefl a : ~ string_lt a a.
Proof. unfold string_lt. now rewrite string_compare_refl. Qed.

Lemma string_leb_trans a b c :
  String.leb a b = true -> String.leb b c = true -> String.leb a c = true.
Proof.
  rewrite !string_leb_iff. intros [Hab| ->] [Hbc| ->]; auto.
  left. eapply string_lt_trans; eauto.
Qed.

(** Sorting a list without duplicates puts it in strictly ascending order. *)
Lemma sorted_set_ascending (l : list string) :
  StronglySorted string_lt (sorted_set l) /\ NoDup (sorted_set l).
Proof.
  unfold sorted_set, sorted.
  assert (Hnd : NoDup (stable_sort String.leb (remove_dups l))).
  { rewrite stable_sort_perm. apply NoDup_remove_dups. }
  split; [|easy].
  pose proof (stable_sort_sorted String.leb (remove_dups l)
                String.leb_total string_leb_trans) as Hs.
  induction Hs as [|a k Hs IH Hall]; constructor.
  - apply IH. now apply NoDup_cons in Hnd as [_ Hnd].
  - apply NoDup_cons in Hnd as [Ha _].
    apply Forall_forall. intros b Hb.
    rewrite Forall_forall in Hall.
    destruct (proj1 (string_leb_iff a b) (Hall b Hb)) as [Hlt| ->]; [easy|].
    contradiction.
Qed.

Section Dissolver.

Context {T : Toolkit}.
Implicit Types (gdf : GeoDataFrame).

Lemma dissolve_names gdf :
  nameCol <$> dissolve_by_name gdf = Some <$> group_keys gdf.
Proof.
  unfold dissolve_by_name. destruct (is_nil gdf) eqn:E.
  - apply is_nil_true in E as ->. reflexivity.
  - rewrite <- list_fmap_compose. reflexivity.
Qed.

(** X5: dissolving yields exactly one row per distinct non-null name of the
    input, in strictly ascending name order; rows without a name are dropped;
    and the geometry of each row is the union of the geometries of all input
    rows with that name, in frame order. *)
Theorem dissolve_one_row_per_name gdf :
  (forall name,
     (Some name ∈ (nameCol <$> dissolve_by_name gdf)) <->
     (exists f, f ∈ gdf /\ nameCol f = Some name)) /\
  (None ∉ (nameCol <$> dissolve_by_name gdf)) /\
  NoDup (nameCol <$> dissolve_by_name gdf) /\
  StronglySorted string_lt (omap nameCol (dissolve_by_name gdf)) /\
  Forall
    (fun r =>
       exists name,
         nameCol r = Some name /\
         geometry r
         = union_all (geometry <$> filter (fun f => nameCol f = Some name) gdf))
    (dissolve_by_name gdf).
Proof.
  rewrite dissolve_names. repeat split.
  - intros Hin. apply list_elem_of_fmap in Hin as (n & [= <-] & Hn).
    now apply group_keys_elem.
  - intros Hex. apply list_elem_of_fmap. exists name. split; [easy|].
    now apply group_keys_elem.
  - intros Hin. apply list_elem_of_fmap in Hin as (n & Hn & _). discriminate.
  - apply NoDup_fmap_2; [intros ? ? [=]; congruence|].
    apply sorted_set_ascending.
  - assert (Homap : omap nameCol (dissolve_by_name gdf) = group_keys gdf).
    { unfold dissolve_by_name. destruct (is_nil gdf) eqn:E.
      - apply is_nil_true in E as ->. reflexivity.
      - induction (group_keys gdf) as [|n ns IH]; [easy|].
        cbn. f_equal. exact IH. }
    rewrite Homap. apply sorted_set_ascending.
  - unfold dissolve_by_name. destruct (is_nil gdf) eqn:E.
    + apply is_nil_true in E as ->. constructor.
    + apply Forall_fmap, Forall_forall. intros name _. now exists name.
Qed.

(** X6: dissolving the rows of one geography type keeps that type: every
    dissolved row of [gdf[gdf['id'] == p]] carries the id [p]. *)
Theorem dissolve_keeps_the_id gdf p :
  Forall (fun r => id r = p) (dissolve_by_name (select_id gdf p)).
Proof.
  unfold dissolve_by_name. destruct (is_nil (select_id gdf p)) eqn:E.
  - apply is_nil_true in E. rewrite E. constructor.
  - apply Forall_fmap, Forall_forall. intros name Hname. simpl.
    apply group_keys_elem in Hname as (f & Hf & Hn).
    assert (Hin : f ∈ group_rows (select_id gdf p) name)
      by now apply group_rows_elem.
    destruct (group_rows (select_id gdf p) name) as [|f0 rows] eqn:Hrows;
      [inversion Hin|].
    simpl.
    assert (Hf0 : f0 ∈ group_rows (select_id gdf p) name)
      by (rewrite Hrows; left).
    apply group_rows_elem in Hf0 as [_ Hf0].
    now apply select_id_elem in Hf0 as [Hid _].
Qed.


(** X8: [union_by_name] returns one pair per distinct non-null name of the
    subset, in strictly ascending name order, and the geometry of a pair
    merges every row of the subset with that name, not just the first. *)
Theorem union_by_name_one_pair_per_name gdf :
  (forall name,
     (name ∈ (fst <$> union_by_name gdf)) <->
     (exists f, f ∈ gdf /\ nameCol f = Some name)) /\
  StronglySorted string_lt (fst <$> union_by_name gdf) /\
  NoDup (fst <$> union_by_name gdf) /\
  Forall
    (fun tu =>
       tu.2 = union_all (geometry <$> filter (fun f => nameCol f = Some tu.1) gdf))
    (union_by_name gdf).
Proof.
  assert (Hfst : fst <$> union_by_name gdf = group_keys gdf).
  { unfold union_by_name. destruct (is_nil gdf) eqn:E.
    - apply is_nil_true in E as ->. reflexivity.
    - rewrite <- list_fmap_compose. apply list_fmap_id. }
  rewrite Hfst. repeat split.
  - now intros H%group_keys_elem.
  - now intros H%group_keys_elem.
  - apply sorted_set_ascending.
  - apply sorted_set_ascending.
  - apply Forall_forall. intros tu Htu.
    now apply union_by_name_elem in Htu as [_ ->].
Qed.

End Dissolver.

(** * Epsilon as a floor of the threshold *)

Lemma for_extend_ext {A B} (f g : A -> result (list B)) l :
  (forall x, x ∈ l -> f x = g x) -> for_extend f l = for_extend g l.
Proof.
  induction l as [|x l IH]; intros Hfg; [easy|].
  py_simpl. rewrite (Hfg x) by left. rewrite IH; [easy|].
  intros; apply Hfg; now right.
Qed.

Lemma threshold_floor (x m e : Q) :
  (m <= e)%Q -> Qle_bool x (Py.max m e) = Qle_bool x e.
Proof.
  intros Hm. unfold Py.max. destruct (Qle_bool e m) eqn:E; [|easy].
  apply Qle_bool_iff in E.
  assert (Heq : (m == e)%Q) by now apply Qle_antisym.
  now rewrite Heq.
Qed.

Section Floor.

Context {T : Toolkit}.
Variables (all_gdf_2263 : GeoDataFrame) (primary_id : string)
  (other_ids : list string) (buffer_feet epsilon m1 m2 : Q)
  (max_primaries : option Z).
Hypotheses (H1 : (m1 <= epsilon)%Q) (H2 : (m2 <= epsilon)%Q).

Lemma longform_primary_floor prow :
  longform_primary all_gdf_2263 primary_id other_ids buffer_feet m1 epsilon prow
  = longform_primary all_gdf_2263 primary_id other_ids buffer_feet m2 epsilon
      prow.
Proof.
  unfold longform_primary.
  destruct (geometry prow) as [g|]; [|easy].
  destruct (is_empty g); [easy|].
  destruct (Qle_bool (area g) epsilon); [easy|].
  rewrite iloc_sindex. py_simpl.
  apply for_extend_ext. intros other_id _. unfold longform_other.
  destruct (String.eqb other_id primary_id); [easy|].
  destruct (is_nil _); [easy|].
  apply for_extend_ext. intros tu _. unfold longform_union.
  destruct tu.2 as [t_union|]; [|easy].
  destruct (is_empty t_union); [easy|].
  now rewrite !threshold_floor.
Qed.

Lemma wide_record_floor candidate_gdf pgi ids :
  forall record,
    wide_record primary_id m1 epsilon candidate_gdf pgi record ids
    = wide_record primary_id m2 epsilon candidate_gdf pgi record ids.
Proof.
  induction ids as [|other_id rest IH]; intros record; [easy|]. simpl.
  destruct (String.eqb other_id primary_id); [apply IH|].
  assert (Hk : wide_keep_names m1 epsilon candidate_gdf pgi other_id
               = wide_keep_names m2 epsilon candidate_gdf pgi other_id).
  { unfold wide_keep_names. apply for_extend_ext. intros tu _.
    unfold wide_keep. destruct tu.2; [|easy]. now rewrite !threshold_floor. }
  rewrite Hk. py_simpl.
  destruct (wide_keep_names m2 epsilon candidate_gdf pgi other_id); [|easy].
  apply IH.
Qed.

(** X9: epsilon is a floor of the threshold: two minimum final areas that
    are both at most epsilon give the same long-form result and the same wide
    table. *)
Theorem min_area_below_epsilon_is_ignored :
  build_longform_for_primary all_gdf_2263 primary_id other_ids buffer_feet
    m1 epsilon max_primaries
  = build_longform_for_primary all_gdf_2263 primary_id other_ids buffer_feet
      m2 epsilon max_primaries /\
  build_wide_for_primary all_gdf_2263 primary_id other_ids buffer_feet
    m1 epsilon max_primaries
  = build_wide_for_primary all_gdf_2263 primary_id other_ids buffer_feet
      m2 epsilon max_primaries.
Proof.
  unfold build_longform_for_primary, build_wide_for_primary.
  destruct (is_nil (select_id all_gdf_2263 primary_id)); [easy|].
  split.
  - rewrite (for_extend_ext _
               (longform_primary all_gdf_2263 primary_id other_ids buffer_feet
                  m2 epsilon) _ (fun prow _ => longform_primary_floor prow)).
    reflexivity.
  - rewrite (for_extend_ext
               (wide_primary all_gdf_2263 primary_id other_ids buffer_feet
                  m1 epsilon)
               (wide_primary all_gdf_2263 primary_id other_ids buffer_feet
                  m2 epsilon)); [reflexivity|].
    intros prow _. unfold wide_primary.
    destruct (geometry prow) as [g|]; [|easy].
    destruct (is_empty g); [easy|].
    rewrite iloc_sindex. py_simpl. now rewrite wide_record_floor.
Qed.

End Floor.

Lemma min_area_below_epsilon_is_ignored_witness :
  build_longform_for_primary ordered "cd" ["sd"; "pp"; "cd"] 0 0 5 None
  = build_longform_for_primary ordered "cd" ["sd"; "pp"; "cd"] 0 3 5 None /\
  build_wide_for_primary ordered "cd" ["sd"; "pp"; "cd"] 0 0 5 None
  = build_wide_for_primary ordered "cd" ["sd"; "pp"; "cd"] 0 3 5 None.
Proof.
  apply (@min_area_below_epsilon_is_ignored Grid.toolkit ordered "cd"
           ["sd"; "pp"; "cd"] 0 5 0 3 None).
  - vm_compute. discriminate.
  - vm_compute. discriminate.
Defined.

(** * The cap on the primary regions *)

Lemma for_extend_app_inv {A B} (f : A -> result (list B)) l1 l2 out :
  for_extend f (l1 ++ l2) = Ok out ->
  exists o1 o2,
    for_extend f l1 = Ok o1 /\ for_extend f l2 = Ok o2 /\ out = o1 ++ o2.
Proof.
  revert out. induction l1 as [|x l1 IH]; intros out Hout.
  - now exists [], out.
  - simpl in Hout.
    apply for_extend_cons_inv in Hout as (ys & zs & Hx & Hl & ->).
    destruct (IH zs Hl) as (o1 & o2 & H1 & H2 & ->).
    exists (ys ++ o1), o2. split; [now apply for_extend_cons_Ok|].
    split; [easy | apply app_assoc].
Qed.

Lemma for_each_app_inv {A B} (f : A -> result B) l1 l2 out :
  for_each f (l1 ++ l2) = Ok out ->
  exists o1 o2, for_each f l1 = Ok o1 /\ for_each f l2 = Ok o2 /\ out = o1 ++ o2.
Proof.
  revert out. induction l1 as [|x l1 IH]; intros out Hout.
  - now exists [], out.
  - py_simpl. destruct (f x) as [y|]; [|discriminate].
    destruct (for_each f (l1 ++ l2)) as [ys|] eqn:Hl; [|discriminate].
    injection Hout as <-.
    destruct (IH ys eq_refl) as (o1 & o2 & -> & H2 & ->).
    now exists (y :: o1), o2.
Qed.

Section Cap.

Context {T : Toolkit}.
Variables (all_gdf_2263 : GeoDataFrame) (primary_id : string)
  (other_ids : list string)
  (buffer_feet min_intersection_area_final epsilon : Q).

(** What the cap leaves is a front part of the dissolved frame. *)
Lemma cap_primaries_front max_primaries (df : GeoDataFrame) :
  exists rest, df = cap_primaries max_primaries df ++ rest.
Proof.
  unfold cap_primaries. destruct max_primaries as [n|].
  - destruct (0 <? n)%Z.
    + exists (drop (Z.to_nat n) df). now rewrite take_drop.
    + exists []. now rewrite app_nil_r.
  - exists []. now rewrite app_nil_r.
Qed.

(** X10: a cap only takes rows away.  When the uncapped long-form build
    completes, the capped one completes with rows all among the uncapped
    rows; when the uncapped wide build completes, the capped one completes
    with a table whose rows are the first rows of the uncapped table, under
    the same columns. *)
Theorem cap_only_removes_rows max_primaries :
  (forall rows,
     build_longform_for_primary all_gdf_2263 primary_id other_ids buffer_feet
       min_intersection_area_final epsilon None = Ok rows ->
     exists rows',
       build_longform_for_primary all_gdf_2263 primary_id other_ids
         buffer_feet min_intersection_area_final epsilon max_primaries
       = Ok rows' /\
       rows' ⊆ rows) /\
  (forall tbl,
     build_wide_for_primary all_gdf_2263 primary_id other_ids buffer_feet
       min_intersection_area_final epsilon None = Ok tbl ->
     exists tbl',
       build_wide_for_primary all_gdf_2263 primary_id other_ids buffer_feet
         min_intersection_area_final epsilon max_primaries = Ok tbl' /\
       cells tbl' `prefix_of` cells tbl /\
       (cells tbl' <> [] -> columns tbl' = columns tbl)).
Proof.
  split.
  - intros rows. unfold build_longform_for_primary.
    destruct (is_nil (select_id all_gdf_2263 primary_id));
      [intros [= <-]; now exists []|].
    destruct (cap_primaries_front max_primaries
                (dissolve_by_name (select_id all_gdf_2263 primary_id)))
      as (rest & Hfront).
    simpl (cap_primaries None _). rewrite Hfront at 1. py_simpl.
    destruct (for_extend _ (_ ++ rest)) as [records|] eqn:Hloop;
      [|discriminate].
    apply for_extend_app_inv in Hloop as (o1 & o2 & -> & _ & ->).
    intros Hrows.
    exists (if is_nil o1 then [] else sort_values o1).
    split; [now destruct (is_nil o1)|].
    intros r Hr. destruct o1 as [|r1 o1]; [inversion Hr|].
    simpl in Hr, Hrows. injection Hrows as <-.
    rewrite sort_values_elem in *.
    apply (proj2 (elem_of_app (r1 :: o1) o2 r)). now left.
  - intros tbl. unfold build_wide_for_primary.
    destruct (is_nil (select_id all_gdf_2263 primary_id));
      [intros [= <-]; exists empty_wide; now repeat split|].
    destruct (cap_primaries_front max_primaries
                (dissolve_by_name (select_id all_gdf_2263 primary_id)))
      as (rest & Hfront).
    simpl (cap_primaries None _). rewrite Hfront at 1. py_simpl.
    destruct (for_extend _ (_ ++ rest)) as [rows|] eqn:Hloop; [|discriminate].
    apply for_extend_app_inv in Hloop as (o1 & o2 & -> & _ & ->).
    destruct o1 as [|row1 o1].
    + intros _. exists empty_wide. split; [easy|].
      split; [apply prefix_nil | easy].
    + simpl.
      destruct (select_columns _ (row1 :: o1 ++ o2)) as [data|] eqn:Hsel;
        [|discriminate].
      intros [= <-].
      unfold select_columns in Hsel.
      apply (for_each_app_inv _ (row1 :: o1) o2) in Hsel
        as (d1 & d2 & Hd1 & _ & ->).
      unfold select_columns. rewrite Hd1.
      eexists. split; [reflexivity|]. simpl.
      split; [now exists d2 | easy].
Qed.

End Cap.

Lemma cap_only_removes_rows_witness :
  exists tbl',
    build_wide_for_primary ordered "cd" ["sd"; "pp"; "cd"] 0 1 (1 # 1000000)
      (Some 1%Z) = Ok tbl' /\
    cells tbl' `prefix_of` [["A"; "T;U"; "S"]; ["B"; "U"; "S"]] /\
    (cells tbl' <> [] -> columns tbl' = ["cd"; "pp"; "sd"]).
Proof.
  apply (@cap_only_removes_rows Grid.toolkit ordered "cd" ["sd"; "pp"; "cd"]
           0 1 (1 # 1000000) (Some 1%Z)
         : _ /\ (forall tbl, _))
    with (tbl := {| columns := ["cd"; "pp"; "sd"];
                    cells := [["A"; "T;U"; "S"]; ["B"; "U"; "S"]] |}).
  vm_compute. reflexivity.
Defined.

(** * Long-form rows and wide cells of the same region *)

Lemma for_extend_paired_inv {A B C} (f : A -> result (list B))
    (g : A -> result (list C)) (h : B -> C) (l : list A) out :
  for_extend f l = Ok out ->
  (forall x ys, x ∈ l -> f x = Ok ys -> g x = Ok (h <$> ys)) ->
  for_extend g l = Ok (h <$> out).
Proof.
  revert out. induction l as [|x l IH]; intros out Hout Hpair.
  - now injection Hout as <-.
  - apply for_extend_cons_inv in Hout as (ys & zs & Hx & Hl & ->).
    rewrite fmap_app. apply for_extend_cons_Ok.
    + apply Hpair; [left | easy].
    + apply IH; [easy|]. intros x' ys' Hin. apply Hpair. now right.
Qed.

Lemma cap_primaries_subseteq {T : Toolkit} max_primaries (df : GeoDataFrame) :
  cap_primaries max_primaries df ⊆ df.
Proof.
  unfold cap_primaries. destruct max_primaries as [n|]; [|easy].
  destruct (0 <? n)%Z; [apply subseteq_take | easy].
Qed.

(** A dissolved row is determined by its name. *)
Lemma dissolve_row_by_name {T : Toolkit} (gdf : GeoDataFrame) r1 r2 :
  r1 ∈ dissolve_by_name gdf -> r2 ∈ dissolve_by_name gdf ->
  Py.str (nameCol r1) = Py.str (nameCol r2) -> r1 = r2.
Proof.
  unfold dissolve_by_name. destruct (is_nil gdf) eqn:E.
  - apply is_nil_true in E as ->. intros H. inversion H.
  - rewrite !list_elem_of_fmap. intros (n1 & -> & _) (n2 & -> & _). simpl.
    now intros ->.
Qed.

Section Agreement.

Context {T : Toolkit}.
Variables (all_gdf_2263 : GeoDataFrame) (primary_id : string)
  (other_ids : list string)
  (buffer_feet min_intersection_area_final epsilon : Q)
  (max_primaries : option Z).
Hypothesis Hunion : union_all_live.

(** X11: past the guard on the primary area the two tables agree.  For a
    completed long-form build and a processed region with a live geometry
    of area above epsilon, the names the wide build keeps for an other id
    are exactly the other names of the long-form rows of that region and
    other id. *)
Theorem wide_names_match_longform_rows rows prow p_geom_orig other_id :
  build_longform_for_primary all_gdf_2263 primary_id other_ids buffer_feet
    min_intersection_area_final epsilon max_primaries = Ok rows ->
  prow ∈ cap_primaries max_primaries
           (dissolve_by_name (select_id all_gdf_2263 primary_id)) ->
  geometry prow = Some p_geom_orig ->
  is_empty p_geom_orig = false ->
  (epsilon < area p_geom_orig)%Q ->
  other_id ∈ other_ids ->
  other_id <> primary_id ->
  exists ks,
    wide_keep_names min_intersection_area_final epsilon
      (filter (fun f => box_hit (bounds p_geom_orig) f = true) all_gdf_2263)
      (geom_for_intersection buffer_feet p_geom_orig) other_id = Ok ks /\
    forall t,
      t ∈ ks <->
      exists r,
        r ∈ rows /\
        primary_geography_namecol r = Py.str (nameCol prow) /\
        other_geography_id r = other_id /\
        other_geography_namecol r = t.
Proof.
  intros Hbuild Hprow Hg He Ha Hoid Hne.
  apply Qle_bool_false in Ha.
  unfold build_longform_for_primary in Hbuild.
  destruct (is_nil (select_id all_gdf_2263 primary_id)) eqn:Hsrc.
  { apply is_nil_true in Hsrc. rewrite Hsrc in Hprow.
    unfold dissolve_by_name in Hprow. simpl in Hprow.
    rewrite cap_primaries_nil in Hprow. inversion Hprow. }
  py_simpl.
  destruct (for_extend _ _) as [records|] eqn:Hloop; [|discriminate].
  assert (Hrows : forall r, r ∈ records -> r ∈ rows).
  { intros r Hr. destruct records as [|r0 records]; [inversion Hr|].
    simpl in Hbuild. injection Hbuild as <-. now apply sort_values_elem. }
  assert (Hrecords : forall r, r ∈ rows -> r ∈ records).
  { intros r Hr. destruct records as [|r0 records].
    - simpl in Hbuild. injection Hbuild as <-. inversion Hr.
    - simpl in Hbuild. injection Hbuild as <-. now apply sort_values_elem. }
  destruct (for_extend_step_Ok _ _ _ _ Hloop Hprow) as (ys & Hp & Hsub).
  pose proof Hp as Hp'.
  unfold longform_primary in Hp'. rewrite Hg, He, Ha, iloc_sindex in Hp'.
  py_simpl.
  destruct (for_extend_step_Ok _ _ _ _ Hp' Hoid) as (ys' & Ho & Hsub').
  exists (other_geography_namecol <$> ys'). split.
  - unfold longform_other in Ho. unfold wide_keep_names.
    destruct (String.eqb_spec other_id primary_id) as [|_]; [easy|].
    destruct (is_nil (select_id _ other_id)) eqn:Hnil.
    { apply is_nil_true in Hnil. rewrite Hnil. now injection Ho as <-. }
    apply (for_extend_paired_inv _ _ _ _ _ Ho). intros tu ys0 Htu.
    destruct (candidate_union_live _ Hunion _ _ _ Htu) as (u & Hu & Hue).
    unfold longform_union, wide_keep, Py.div. rewrite Hu, Hue.
    destruct (Qle_bool (inter_area_of _ u) _); simpl.
    { intros H. injection H as H. now subst ys0. }
    destruct (Qeq_bool (area p_geom_orig) 0); py_simpl; [discriminate|].
    intros H. injection H as H. now subst ys0.
  - intros t. rewrite list_elem_of_fmap. split.
    + intros (r & -> & Hr). exists r. split; [auto|].
      destruct (longform_other_inv _ _ _ _ _ _ _ _ _ _ Ho Hr)
        as (_ & tu & ys0 & _ & Hu & Hr0).
      destruct (longform_union_inv _ _ _ _ _ _ _ _ _ _ Hu Hr0)
        as (u & _ & _ & _ & _ & ->).
      now simpl.
    + intros (r & Hr & Hname & Hother & Ht).
      apply Hrecords in Hr.
      apply (for_extend_elem _ _ _ r Hloop) in Hr
        as (prow' & ys1 & Hprow' & Hp1 & Hr1).
      destruct (longform_primary_inv _ _ _ _ _ _ _ _ _ Hp1 Hr1)
        as (g' & oid' & ys2 & Hg' & _ & _ & _ & Ho2 & Hr2).
      destruct (longform_other_inv _ _ _ _ _ _ _ _ _ _ Ho2 Hr2)
        as (_ & tu & ys3 & _ & Hu3 & Hr3).
      destruct (longform_union_inv _ _ _ _ _ _ _ _ _ _ Hu3 Hr3)
        as (u & _ & _ & _ & _ & Hrec).
      assert (Heq : prow' = prow).
      { apply (dissolve_row_by_name (select_id all_gdf_2263 primary_id)).
        - now apply cap_primaries_subseteq in Hprow'.
        - now apply cap_primaries_subseteq in Hprow.
        - rewrite <- Hname, Hrec. reflexivity. }
      subst prow'. rewrite Hg in Hg'. injection Hg' as <-.
      assert (oid' = other_id) by (rewrite <- Hother, Hrec; reflexivity).
      subst oid'. rewrite Ho in Ho2. injection Ho2 as <-.
      exists r. now split.
Qed.

End Agreement.

Lemma wide_names_match_longform_rows_witness :
  exists ks,
    wide_keep_names 1 (1 # 1000000)
      (filter
         (fun f => box_hit (@bounds Grid.toolkit (Grid.rect 0 0 4 4)) f = true)
         ordered)
      (@geom_for_intersection Grid.toolkit 0 (Grid.rect 0 0 4 4)) "pp"
    = Ok ks /\
    forall t,
      t ∈ ks <->
      exists r,
        r ∈ ordered_rows /\
        primary_geography_namecol r = "A" /\
        other_geography_id r = "pp" /\
        other_geography_namecol r = t.
Proof.
  apply (@wide_names_match_longform_rows Grid.toolkit ordered "cd"
           ["sd"; "pp"; "cd"] 0 1 (1 # 1000000) None grid_union_all_live
           ordered_rows (Grid.feature "cd" "A" (Grid.rect 0 0 4 4))
           (Grid.rect 0 0 4 4) "pp").
  - vm_compute. reflexivity.
  - vm_compute. left.
  - reflexivity.
  - reflexivity.
  - vm_compute. reflexivity.
  - right. left.
  - discriminate.
Defined.

(** * The driver *)


Section Driver.

Context {T : Toolkit}.
Implicit Types (args : Args) (written : list Artifact).


Lemma build_primary_appends args target_ids written p :
  exists new,
    (build_primary args target_ids written p).1 = written ++ new /\
    Forall (fun a => is_csv a = true) new.
Proof.
  unfold build_primary.
  destruct (build_longform_for_primary _ _ _ _ _ _ _) as [lf|e]; simpl.
  - destruct (build_wide_for_primary _ _ _ _ _ _ _) as [wf|e]; simpl.
    + destruct (is_nil lf), (wide_empty wf); rewrite <- ?app_assoc;
        eexists; (split; [try reflexivity; symmetry; apply app_nil_r|]);
        repeat constructor.
    + destruct (is_nil lf);
        eexists; (split; [try reflexivity; symmetry; apply app_nil_r|]);
        repeat constructor.
  - exists []. split; [now rewrite app_nil_r | constructor].
Qed.

Lemma build_primaries_appends args target_ids primary_ids :
  forall written,
  exists new,
    (build_primaries args target_ids written primary_ids).1 = written ++ new /\
    Forall (fun a => is_csv a = true) new.
Proof.
  induction primary_ids as [|p rest IH]; intros written; simpl.
  - exists []. split; [now rewrite app_nil_r | constructor].
  - destruct (build_primary_appends args target_ids written p)
      as (new & Hnew & Hcsv).
    destruct (build_primary args target_ids written p) as [w [e|]];
      simpl in Hnew; subst w.
    + now exists new.
    + destruct (IH (written ++ new)) as (new' & Hnew' & Hcsv').
      exists (new ++ new'). rewrite Hnew', app_assoc. split; [easy|].
      now apply Forall_app.
Qed.

(** X13: the metadata record is written exactly when the run completes, and
    then last: a completed run leaves CSV files followed by
    [crosswalks_meta.json] with the parameters and the resolved id lists; a
    run ended by an exception leaves CSV files only. *)
Theorem main_writes_meta_last args :
  match main args with
  | (files, None) =>
      exists csvs,
        files
        = csvs ++
          [MetaJson (path_join (run_dir args) "crosswalks_meta.json")
             (buffer_feet args) (min_area_final args) (epsilon args)
             (exclude_ids args)
             (restrict_ids (primary_only args) (geography_ids args))
             (restrict_ids (targets args) (geography_ids args))] /\
        Forall (fun a => is_csv a = true) csvs
  | (files, Some e) => Forall (fun a => is_csv a = true) files
  end.
Proof.
  unfold main.
  destruct (build_primaries_appends args
              (restrict_ids (targets args) (geography_ids args))
              (restrict_ids (primary_only args) (geography_ids args)) [])
    as (new & Hnew & Hcsv).
  destruct (build_primaries _ _ _ _) as [w [e|]]; simpl in Hnew; subst w.
  - easy.
  - now exists new.
Qed.

(** X14: the run stops at the first exception: once the loop over some
    primary ids has ended with an exception, appending further ids changes
    neither the files written nor the exception. *)
Theorem run_stops_at_first_exception args target_ids written ids files e :
  build_primaries args target_ids written ids = (files, Some e) ->
  forall more,
    build_primaries args target_ids written (ids ++ more) = (files, Some e).
Proof.
  revert written. induction ids as [|p rest IH]; intros written; simpl.
  - discriminate.
  - destruct (build_primary args target_ids written p) as [w [e'|]].
    + now intros [= <- <-].
    + intros H more. now apply IH.
Qed.


End Driver.

Lemma run_stops_at_first_exception_witness :
  build_primaries speck_args ["cd"; "pp"] [] (["cd"] ++ ["pp"])
  = ([], Some ZeroDivisionError).
Proof.
  apply (@run_stops_at_first_exception Dotted.toolkit speck_args ["cd"; "pp"]
           [] ["cd"] [] ZeroDivisionError).
  vm_compute. reflexivity.
Defined.


(** On [speck] the first primary id raises: nothing is written, not even
    the metadata record. *)
Example main_aborts_on_speck : main speck_args = ([], Some ZeroDivisionError).
Proof. vm_compute. reflexivity. Qed.

(** * The shape of the wide table *)

Section WideShape.

Context {T : Toolkit}.
Variables (all_gdf_2263 : GeoDataFrame) (primary_id : string)
  (other_ids : list string)
  (buffer_feet min_intersection_area_final epsilon : Q)
  (max_primaries : option Z).
Hypothesis Hunion : union_all_live.

(** X16: the wide table is rectangular: every row has one cell per column.
    When it has rows, its header is the primary id followed by the other
    ids of the list without the primary id, in ascending order, and the
    first cells of the rows are pairwise different region names. *)
Theorem wide_table_is_rectangular :
  exists tbl,
    build_wide_for_primary all_gdf_2263 primary_id other_ids buffer_feet
      min_intersection_area_final epsilon max_primaries = Ok tbl /\
    Forall (fun row => length row = length (columns tbl)) (cells tbl) /\
    NoDup (head <$> cells tbl) /\
    (cells tbl <> [] ->
     exists rest,
       columns tbl = primary_id :: rest /\
       StronglySorted (fun a b => string_lt a b \/ a = b) rest /\
       forall c, (c ∈ rest) <-> (c ∈ other_ids /\ c <> primary_id)).
Proof.
  destruct (build_wide_table all_gdf_2263 primary_id other_ids buffer_feet
              min_intersection_area_final epsilon Hunion max_primaries)
    as (tbl & Hbuild & Hrows & Hcols).
  exists tbl. split; [easy|]. split; [|split].
  - destruct (decide (cells tbl = [])) as [E|E]; [rewrite E; constructor|].
    rewrite (Hcols E). clear Hcols E.
    induction Hrows as [|prow row regions data Hrow _ IH]; constructor; [|easy].
    destruct Hrow as (g & _ & others & -> & Hcells).
    unfold wide_columns. simpl. f_equal.
    symmetry. exact (Forall2_length _ _ _ Hcells).
  - assert (Hheads : head <$> cells tbl
                     = (fun prow => Some (Py.str (nameCol prow)))
                       <$> filter live
                             (cap_primaries max_primaries
                                (dissolve_by_name
                                   (select_id all_gdf_2263 primary_id)))).
    { clear Hcols.
      induction Hrows as [|prow row regions data Hrow _ IH]; [easy|].
      destruct Hrow as (g & _ & others & -> & _).
      rewrite !fmap_cons, IH. reflexivity. }
    rewrite Hheads.
    apply (NoDup_fmap_2_strong _).
    + intros r1 r2 Hr1 Hr2 [= Heq].
      apply list_elem_of_filter in Hr1 as [_ Hr1].
      apply list_elem_of_filter in Hr2 as [_ Hr2].
      apply cap_primaries_subseteq in Hr1, Hr2.
      exact (dissolve_row_by_name _ _ _ Hr1 Hr2 Heq).
    + apply NoDup_filter.
      destruct (cap_primaries_front max_primaries
                  (dissolve_by_name (select_id all_gdf_2263 primary_id)))
        as (rest & Hfront).
      assert (Hnd : NoDup (dissolve_by_name
                             (select_id all_gdf_2263 primary_id))).
      { apply (NoDup_fmap_1 nameCol). rewrite dissolve_names.
        apply NoDup_fmap_2; [intros ? ? [=]; congruence|].
        apply sorted_set_ascending. }
      rewrite Hfront in Hnd. now apply NoDup_app in Hnd as [Hnd _].
  - intros E. rewrite (Hcols E). unfold wide_columns.
    eexists. split; [reflexivity|]. split.
    + pose proof (stable_sort_sorted String.leb
                    (filter (fun g => g <> primary_id) other_ids)
                    String.leb_total string_leb_trans) as Hs.
      unfold sorted.
      induction Hs as [|a l Hs IH Hall]; constructor; [easy|].
      eapply Forall_impl; [exact Hall|]. intros b. apply string_leb_iff.
    + intros c. rewrite sorted_elem.
      rewrite (list_elem_of_filter (fun g => g <> primary_id)). tauto.
Qed.

End WideShape.

Lemma wide_table_is_rectangular_witness :
  exists tbl,
    build_wide_for_primary ordered "cd" ["sd"; "pp"; "cd"] 0 1 (1 # 1000000)
      None = Ok tbl /\
    Forall (fun row => length row = length (columns tbl)) (cells tbl) /\
    NoDup (head <$> cells tbl) /\
    (cells tbl <> [] ->
     exists rest,
       columns tbl = "cd" :: rest /\
       StronglySorted (fun a b => string_lt a b \/ a = b) rest /\
       forall c, (c ∈ rest) <-> (c ∈ ["sd"; "pp"; "cd"] /\ c <> "cd")).
Proof.
  apply (@wide_table_is_rectangular Grid.toolkit ordered "cd"
           ["sd"; "pp"; "cd"] 0 1 (1 # 1000000) None).
  exact grid_union_all_live.
Defined.

(** X17: the text of a wide cell depends only on the set of names kept: two
    lists of names with the same members, in any order and with any
    repetition, are written as the same cell. *)
Theorem cell_text_depends_on_name_set (ks1 ks2 : list string) :
  (forall x, x ∈ ks1 <-> x ∈ ks2) ->
  sorted_set ks1 = sorted_set ks2 /\ cell_text ks1 = cell_text ks2.
Proof.
  intros Hsame.
  assert (Hsort : sorted_set ks1 = sorted_set ks2).
  { destruct (sorted_set_ascending ks1) as [Hs1 Hn1].
    destruct (sorted_set_ascending ks2) as [Hs2 Hn2].
    apply (StronglySorted_unique_strong string_lt); [|exact Hs1|exact Hs2|].
    - intros x1 x2 _ _ H12 H21. exfalso.
      apply (string_lt_irrefl x1). eapply string_lt_trans; eauto.
    - apply NoDup_Permutation; [exact Hn1|exact Hn2|].
      intros x. now rewrite !sorted_set_elem. }
  split; [easy|]. unfold cell_text. rewrite Hsort.
  destruct ks1 as [|a ks1], ks2 as [|b ks2]; [easy| | |easy]; exfalso.
  - assert (H : b ∈ []) by (apply Hsame; left). inversion H.
  - assert (H : a ∈ []) by (apply Hsame; left). inversion H.
Qed.

Lemma cell_text_depends_on_name_set_witness :
  sorted_set ["U"; "T"; "U"] = sorted_set ["T"; "U"] /\
  cell_text ["U"; "T"; "U"] = cell_text ["T"; "U"].
Proof.
  apply (cell_text_depends_on_name_set ["U"; "T"; "U"] ["T"; "U"]).
  intros x. rewrite !elem_of_cons. tauto.
Defined.

(** * Output paths *)

Lemma string_app_length (a b : string) :
  String.length (a ++ b)%string = String.length a + String.length b.
Proof. induction a as [|c a IH]; simpl; [easy | now rewrite IH]. Qed.

Lemma string_app_assoc (a b c : string) :
  ((a ++ b) ++ c = a ++ (b ++ c))%string.
Proof.
  induction a as [|x a IH]; [easy|].
  change (String x ((a ++ b) ++ c) = String x (a ++ (b ++ c)))%string.
  now rewrite IH.
Qed.

Lemma string_app_inj_l (c x y : string) : (c ++ x = c ++ y)%string -> x = y.
Proof.
  induction c as [|a c IH]; [easy|].
  change (String a (c ++ x) = String a (c ++ y) -> x = y)%string.
  intros [= H]. auto.
Qed.

Lemma string_app_inj_r (s p q : string) : (p ++ s = q ++ s)%string -> p = q.
Proof.
  revert q. induction p as [|a p IH]; intros [|b q]; [easy| | |].
  - intros H. apply (f_equal String.length) in H.
    rewrite !string_app_length in H. simpl in H. lia.
  - intros H. apply (f_equal String.length) in H.
    rewrite !string_app_length in H. simpl in H. lia.
  - change (String a (p ++ s) = String b (q ++ s) -> String a p = String b q)%string.
    intros [= -> H]. f_equal. auto.
Qed.

(** Joining a relative path to [a] appends it, after a separator that
    depends on [a] alone. *)
Lemma path_join_relative (a : string) :
  exists sep,
    forall b, String.prefix "/" b = false -> path_join a b = (a ++ sep ++ b)%string.
Proof.
  unfold path_join.
  destruct (String.eqb a "" ||
            String.eqb (String.substring (String.length a - 1) 1 a) "/")%bool.
  - exists "". intros b ->. reflexivity.
  - exists "/". intros b ->. reflexivity.
Qed.

(** X18: no output file overwrites another: under one run directory two
    different primary ids get different long-form paths and different wide
    paths, and a long-form path is never a wide path. *)
Theorem output_paths_are_distinct (run p q : string) :
  p <> q ->
  longform_path run p <> longform_path run q /\
  wide_path run p <> wide_path run q /\
  longform_path run p <> wide_path run p /\
  longform_path run p <> wide_path run q.
Proof.
  intros Hpq. unfold longform_path, wide_path.
  destruct (path_join_relative run) as (s0 & H0).
  rewrite (H0 "longform" eq_refl), (H0 "wide" eq_refl).
  destruct (path_join_relative (run ++ s0 ++ "longform")) as (s1 & H1).
  destruct (path_join_relative (run ++ s0 ++ "wide")) as (s2 & H2).
  rewrite !H1, !H2 by reflexivity.
  rewrite !string_app_assoc.
  repeat split; intros H; repeat (apply string_app_inj_l in H).
  - now apply string_app_inj_r in H.
  - now apply string_app_inj_r in H.
  - discriminate H.
  - discriminate H.
Qed.

Lemma output_paths_are_distinct_witness :
  longform_path "out" "cd" <> longform_path "out" "pp" /\
  wide_path "out" "cd" <> wide_path "out" "pp" /\
  longform_path "out" "cd" <> wide_path "out" "cd" /\
  longform_path "out" "cd" <> wide_path "out" "pp".
Proof.
  apply (output_paths_are_distinct "out" "cd" "pp"). discriminate.
Defined.

(** * The latest run directory *)

Lemma last_of_sorted_is_greatest {A} (R : A -> A -> Prop) l d :
  StronglySorted R l -> last l = Some d -> forall x, x ∈ l -> R x d \/ x = d.
Proof.
  induction 1 as [|a l Hs IH Hall]; intros Hlast x Hx; [inversion Hx|].
  destruct l as [|b l].
  - injection Hlast as <-. apply list_elem_of_singleton in Hx. now right.
  - rewrite last_cons_cons in Hlast.
    apply elem_of_cons in Hx as [->|Hx]; [|now apply IH].
    left. rewrite Forall_forall in Hall. apply Hall.
    now apply last_Some_elem_of.
Qed.

(** X19: [find_latest_run] answers nothing exactly when the outputs folder
    holds no directory; otherwise it answers a directory of the folder whose
    name is the greatest one: every other directory name sorts before it. *)
Theorem find_latest_run_is_greatest (children : list (string * bool)) :
  match find_latest_run children with
  | None => forall name, (name, true) ∉ children
  | Some d =>
      (d, true) ∈ children /\
      forall name, (name, true) ∈ children -> string_lt name d \/ name = d
  end.
Proof.
  unfold find_latest_run.
  set (runs := fst <$> filter (fun c : string * bool => c.2 = true) children).
  assert (Hruns : forall name, name ∈ runs <-> (name, true) ∈ children).
  { intros name. unfold runs. rewrite list_elem_of_fmap. split.
    - intros ([n b] & -> & Hc).
      apply (list_elem_of_filter (fun c : string * bool => c.2 = true)) in Hc
        as [Hb Hc].
      simpl in *. now subst b.
    - intros Hc. exists (name, true). split; [easy|].
      now apply (list_elem_of_filter (fun c : string * bool => c.2 = true)). }
  destruct (is_nil runs) eqn:E.
  - apply is_nil_true in E. intros name Hin. apply Hruns in Hin.
    rewrite E in Hin. inversion Hin.
  - destruct (last (sorted runs)) as [d|] eqn:Hlast.
    + split.
      * apply Hruns, sorted_elem. now apply last_Some_elem_of.
      * intros name Hname. apply Hruns, sorted_elem in Hname.
        assert (Hs : StronglySorted (fun a b => String.leb a b = true)
                       (sorted runs))
          by exact (stable_sort_sorted String.leb runs
                      String.leb_total string_leb_trans).
        destruct (last_of_sorted_is_greatest _ _ _ Hs Hlast name Hname)
          as [H| ->]; [now apply string_leb_iff | now right].
    + apply last_None in Hlast.
      destruct runs as [|r runs]; [discriminate|].
      assert (Hr : r ∈ sorted (r :: runs)) by (apply sorted_elem; left).
      rewrite Hlast in Hr. inversion Hr.
Qed.

(** The run directories are named by their UTC start time. *)
Example find_latest_run_picks_newest :
  find_latest_run
    [ ("2025-03-01_120000_UTC", true); ("2025-11-20_093015_UTC", true);
      ("notes.txt", false); ("2025-04-02_000000_UTC", true) ]
  = Some "2025-11-20_093015_UTC".
Proof. vm_compute. reflexivity. Qed.

(** * Keys of the long-form table *)

(** A loop over items with pairwise distinct labels, each of whose rounds
    appends rows with distinct keys carrying the item's label, appends rows
    with distinct keys overall. *)
Lemma for_extend_NoDup_key {A B K L} (f : A -> result (list B))
    (key : B -> K) (lab : K -> L) (alab : A -> L) xs ys :
  for_extend f xs = Ok ys ->
  NoDup (alab <$> xs) ->
  (forall x o, x ∈ xs -> f x = Ok o ->
     NoDup (key <$> o) /\ forall b, b ∈ o -> lab (key b) = alab x) ->
  NoDup (key <$> ys).
Proof.
  revert ys. induction xs as [|x xs IH]; intros ys Hloop Hnd Hround.
  - injection Hloop as <-. constructor.
  - apply for_extend_cons_inv in Hloop as (o & zs & Hx & Hxs & ->).
    rewrite fmap_cons in Hnd. apply NoDup_cons in Hnd as [Hfresh Hnd].
    rewrite fmap_app. apply NoDup_app. split; [|split].
    + apply (Hround x o); [left | easy].
    + intros k Hk1 Hk2.
      apply list_elem_of_fmap in Hk1 as (b1 & -> & Hb1).
      apply list_elem_of_fmap in Hk2 as (b2 & Hkey & Hb2).
      apply (for_extend_elem _ _ _ _ Hxs) in Hb2 as (x' & o' & Hx' & Hfx' & Hb2).
      apply Hfresh. apply list_elem_of_fmap. exists x'. split; [|easy].
      destruct (Hround x o ltac:(left) Hx) as [_ H1].
      destruct (Hround x' o' ltac:(now right) Hfx') as [_ H2].
      rewrite <- (H1 b1 Hb1), Hkey. now apply H2.
    + apply IH; [easy | easy |].
      intros x' o' Hx' Hfx'. apply Hround; [now right | easy].
Qed.

Section Keys.

Context {T : Toolkit}.
Variables (all_gdf_2263 : GeoDataFrame) (primary_id : string)
  (other_ids : list string)
  (buffer_feet min_intersection_area_final epsilon : Q)
  (max_primaries : option Z).

Lemma union_names (gdf : GeoDataFrame) :
  fst <$> union_by_name gdf = group_keys gdf.
Proof.
  unfold union_by_name. destruct (is_nil gdf) eqn:E.
  - apply is_nil_true in E as ->. reflexivity.
  - rewrite <- list_fmap_compose. apply list_fmap_id.
Qed.

Lemma dissolve_name_strings (gdf : GeoDataFrame) :
  (fun r => Py.str (nameCol r)) <$> dissolve_by_name gdf = group_keys gdf.
Proof.
  unfold dissolve_by_name. destruct (is_nil gdf) eqn:E.
  - apply is_nil_true in E as ->. reflexivity.
  - rewrite <- list_fmap_compose. apply list_fmap_id.
Qed.

Lemma longform_union_keys p_name p_area pgi other_id tu o :
  longform_union primary_id min_intersection_area_final epsilon
    p_name p_area pgi other_id tu = Ok o ->
  NoDup (row_key <$> o) /\
  forall r, r ∈ o -> row_key r = (p_name, other_id, tu.1).
Proof.
  unfold longform_union.
  destruct tu.2 as [t_union|]; [|intros [= <-]; split; [constructor | inversion 1]].
  destruct (is_empty t_union); [intros [= <-]; split; [constructor | inversion 1]|].
  destruct (Qle_bool _ _); [intros [= <-]; split; [constructor | inversion 1]|].
  destruct (Py.div _ _) as [ratio|]; py_simpl; [|discriminate].
  intros H. injection H as <-. split.
  - apply NoDup_singleton.
  - intros r Hr. apply list_elem_of_singleton in Hr as ->. reflexivity.
Qed.

Lemma longform_other_keys candidate_gdf p_name p_area pgi other_id o :
  longform_other primary_id min_intersection_area_final epsilon
    candidate_gdf p_name p_area pgi other_id = Ok o ->
  NoDup (row_key <$> o) /\
  forall r, r ∈ o -> (row_key r).1 = (p_name, other_id).
Proof.
  unfold longform_other.
  destruct (String.eqb _ _); [intros [= <-]; split; [constructor | inversion 1]|].
  destruct (is_nil _); [intros [= <-]; split; [constructor | inversion 1]|].
  intros Hloop. split.
  - apply (for_extend_NoDup_key _ row_key snd fst _ _ Hloop).
    + rewrite union_names. apply sorted_set_ascending.
    + intros tu o' _ Htu. apply longform_union_keys in Htu as [Hnd Hkey].
      split; [easy|]. intros r Hr. now rewrite (Hkey r Hr).
  - intros r Hr.
    apply (for_extend_elem _ _ _ _ Hloop) in Hr as (tu & o' & _ & Htu & Hr).
    apply longform_union_keys in Htu as [_ Hkey]. now rewrite (Hkey r Hr).
Qed.

Lemma longform_primary_keys prow o :
  NoDup other_ids ->
  longform_primary all_gdf_2263 primary_id other_ids buffer_feet
    min_intersection_area_final epsilon prow = Ok o ->
  NoDup (row_key <$> o) /\
  forall r, r ∈ o -> (row_key r).1.1 = Py.str (nameCol prow).
Proof.
  intros Hids. unfold longform_primary.
  destruct (geometry prow) as [g|];
    [|intros [= <-]; split; [constructor | inversion 1]].
  destruct (is_empty g); [intros [= <-]; split; [constructor | inversion 1]|].
  destruct (Qle_bool _ _); [intros [= <-]; split; [constructor | inversion 1]|].
  rewrite iloc_sindex. py_simpl. intros Hloop. split.
  - apply (for_extend_NoDup_key _ row_key (fun k => k.1.2) (fun x => x)
             _ _ Hloop).
    + now rewrite list_fmap_id.
    + intros x o' _ Hx. apply longform_other_keys in Hx as [Hnd Hkey].
      split; [easy|]. intros r Hr. cbv beta. now rewrite (Hkey r Hr).
  - intros r Hr.
    apply (for_extend_elem _ _ _ _ Hloop) in Hr as (x & o' & _ & Hx & Hr).
    apply longform_other_keys in Hx as [_ Hkey]. specialize (Hkey r Hr).
    unfold row_key in Hkey. simpl in Hkey. congruence.
Qed.

(** X20: the long-form table is keyed by (primary name, other id, other
    name): when the other ids are listed without repetition, no two rows of
    the table share that triple, so each pair of a primary region and an
    other region is reported at most once. *)
Theorem longform_rows_have_unique_keys rows :
  NoDup other_ids ->
  build_longform_for_primary all_gdf_2263 primary_id other_ids buffer_feet
    min_intersection_area_final epsilon max_primaries = Ok rows ->
  NoDup (row_key <$> rows).
Proof.
  intros Hids Hbuild.
  apply build_longform_records in Hbuild as [->|(records & Hloop & ->)];
    [constructor|].
  unfold sort_values. rewrite stable_sort_perm.
  apply (for_extend_NoDup_key _ row_key (fun k => k.1.1)
           (fun r => Py.str (nameCol r)) _ _ Hloop).
  - destruct (cap_primaries_front max_primaries
                (dissolve_by_name (select_id all_gdf_2263 primary_id)))
      as (rest & Hfront).
    pose proof (dissolve_name_strings (select_id all_gdf_2263 primary_id))
      as Hnames.
    rewrite Hfront, fmap_app in Hnames.
    assert (Hnd : NoDup (group_keys (select_id all_gdf_2263 primary_id)))
      by apply sorted_set_ascending.
    rewrite <- Hnames in Hnd. now apply NoDup_app in Hnd as [Hnd _].
  - intros prow o _ Hprow. now apply longform_primary_keys in Hprow.
Qed.

End Keys.

Lemma longform_rows_have_unique_keys_witness :
  NoDup (row_key <$> ordered_rows).
Proof.
  apply (@longform_rows_have_unique_keys Grid.toolkit ordered "cd"
           ["sd"; "pp"; "cd"] 0 1 (1 # 1000000) None ordered_rows).
  - apply (bool_decide_unpack _). vm_compute. reflexivity.
  - vm_compute. reflexivity.
Defined.
